(** * Alicloud provider: the AMQP virtual-host lookup, the resource-id
      format, and the token-refreshing log client

    A shallow embedding of

    - [alicloud/service_alicloud_amqp_open.go]
      ([AmqpOpenService.DescribeAmqpVirtualHost]),
    - [vendor/github.com/aliyun/aliyun-log-go-sdk/client_interface.go]
      ([CreateNormalInterface], [CreateTokenAutoUpdateClient]),
    - the id format documented in
      [website/docs/r/vpc_traffic_mirror_filter_ingress_rule.html.markdown].

    Go values of type [interface{}] are the constructors of [value]; a Go
    [map[string]interface{}] is a [gmap string value], and a possibly nil
    one an [option] of it.  Go's [error] is [option error], [None] being
    [nil].  Calls to the cloud, sleeps and debug records are effects: they
    are threaded through a state that carries a logical clock and the
    trace of what happened. *)

From stdpp Require Import base option list gmap strings.
From Stdlib Require Import ZArith Lia Ascii.

Set Warnings "-register-all".

(** ** Dynamic values *)

Inductive value : Type :=
| VNil
| VBool (b : bool)
| VInt (n : Z)
| VStr (s : string)
| VList (l : list value)
| VMap (m : gmap string value).

(** A [map[string]interface{}] variable boxed into an [interface{}]. *)
Definition iface (m : option (gmap string value)) : value :=
  match m with
  | Some m => VMap m
  | None => VNil
  end.

(** ** Durations, in nanoseconds as [time.Duration] has them *)

Definition Second : Z := 1000000000.
Definition Minute : Z := 60 * Second.

(** ** [strings.Split] for a one-character separator *)

Fixpoint Split (s : string) (sep : ascii) : list string :=
  match s with
  | EmptyString => [EmptyString]
  | String c rest =>
      if decide (c = sep) then EmptyString :: Split rest sep
      else match Split rest sep with
           | [] => [String c EmptyString]
           | p :: ps => String c p :: ps
           end
  end.

(** No occurrence of the separator in a string. *)
Fixpoint free_of (sep : ascii) (s : string) : Prop :=
  match s with
  | EmptyString => True
  | String c rest => c ≠ sep ∧ free_of sep rest
  end.

(** ** What the package takes from files that are not modelled here

    The error type is Go's open [error] interface.  The helpers of
    [alicloud/errors.go] and the [jsonpath] library are taken as they are
    called: nothing is assumed of them beyond their types. *)

Class Package := {
  error : Type;
  WrapError : option error → option error;
  WrapErrorf : option error → string → list value → option error;
  Error : string → error;
  GetNotFoundMessage : string → string → string;
  NeedRetry : option error → bool;
  DefaultErrorMsg : string;
  FailedGetAttributeMsg : string;
  NotFoundWithResponse : string;
  AlibabaCloudSdkGoERROR : string;
  jsonpath_Get : string → value → value + error;
  (** the error [ParseResourceId] reports: the id, the number of parts
      expected and the number found *)
  InvalidResourceId : string → nat → nat → error;
}.

Module Amqp.
Section WithPackage.
Context `{Package}.

(** *** Resource ids *)

(** Modelled from the spec: [ParseResourceId] lives in [alicloud/common.go],
    which is not among the sources.  An id is its parts joined with a
    colon ("<traffic_mirror_filter_id>:<traffic_mirror_filter_ingress_rule_id>");
    parsing splits at the colons and reports an error unless the number of
    parts is the expected one. *)
Definition ParseResourceId (id : string) (length : nat)
  : list string * option error :=
  let parts := Split id ":"%char in
  if decide (List.length parts = length) then (parts, None)
  else (parts, Some (InvalidResourceId id length (List.length parts))).

(** *** The connection and the effects *)

(** The arguments of [conn.DoRequest], in the order of the call. *)
Record call := Call {
  c_action : string;
  c_protocol : option string;
  c_method : string;
  c_version : string;
  c_authType : string;
  c_query : gmap string value;
  c_body : option (gmap string value);
  c_autoretry : bool;
}.

(** What one [DoRequest] gives back, and how long it took. *)
Record reply := Reply {
  r_latency : N;
  r_response : option (gmap string value);
  r_err : option error;
}.

(** A connection answers a call knowing the calls made before it. *)
Definition conn := list call → call → reply.

Inductive event :=
| Request (at_ : Z) (c : call)
| Sleep (d : Z)
| DebugLog (action : string) (response : option (gmap string value))
        (request : gmap string value).

Record state := State {
  now : Z;
  trace : list event;
}.

Definition calls (tr : list event) : list call :=
  omap (λ ev, match ev with Request _ c => Some c | _ => None end) tr.

Definition sleeps (tr : list event) : list Z :=
  omap (λ ev, match ev with Sleep d => Some d | _ => None end) tr.

(** A computation returns, panics (a failed type assertion or index), or
    is cut off because a loop was given too few rounds. *)
Inductive outcome (A : Type) :=
| Returns (a : A)
| Panics
| Unfinished.
Global Arguments Returns {A} a.
Global Arguments Panics {A}.
Global Arguments Unfinished {A}.

Definition M (A : Type) : Type := state → outcome A * state.

#[global] Instance M_ret : MRet M := λ A a st, (Returns a, st).
#[global] Instance M_bind : MBind M := λ A B f m st,
  match m st with
  | (Returns a, st') => f a st'
  | (Panics, st') => (Panics, st')
  | (Unfinished, st') => (Unfinished, st')
  end.

Definition panic {A} : M A := λ st, (Panics, st).
Definition unfinished {A} : M A := λ st, (Unfinished, st).
Definition emit (ev : event) : M unit := λ st,
  (Returns (), {| now := now st; trace := trace st ++ [ev] |}).
Definition clock : M Z := λ st, (Returns (now st), st).
Definition elapse (d : Z) : M unit := λ st,
  (Returns (), {| now := now st + d; trace := trace st |}).

(** [time.Sleep] *)
Definition Sleep_ (d : Z) : M unit := emit (Sleep d);; elapse (Z.max 0 d).

(** [conn.DoRequest]: the request is recorded with the time it is sent at,
    the connection answers, and the clock moves by the latency. *)
Definition DoRequest (c : conn) (rq : call)
  : M (option (gmap string value) * option error) := λ st,
  let r := c (calls (trace st)) rq in
  (Returns (r_response r, r_err r),
   {| now := now st + Z.of_N (r_latency r);
      trace := trace st ++ [Request (now st) rq] |}).

(** [addDebug] only writes to the log. *)
Definition addDebug (action : string) (response : option (gmap string value))
  (request : gmap string value) : M unit :=
  emit (DebugLog action response request).

(** The state after a request was sent and answered, after a sleep, and
    after a debug record. *)
Definition sent (st : state) (rq : call) (r : reply) : state :=
  {| now := now st + Z.of_N (r_latency r);
     trace := trace st ++ [Request (now st) rq] |}.

Definition slept (st : state) (d : Z) : state :=
  {| now := now st + Z.max 0 d; trace := trace st ++ [Sleep d] |}.

Definition logged (st : state) (action : string)
  (response : option (gmap string value)) (request : gmap string value)
  : state :=
  {| now := now st; trace := trace st ++ [DebugLog action response request] |}.

(** *** Backoff and retry *)

(** Modelled from the spec: [incrementalWait] lives in [alicloud/common.go],
    which is not among the sources.  It hands out a function that keeps a
    count of its calls, starting at 1; the backoff is incremental: the
    first call sleeps [first], and each later call sleeps [increase] longer
    than the one before. *)
Record waiter := Waiter {
  w_first : Z;
  w_increase : Z;
  w_retryCount : Z;
}.

(** Modelled from the spec: what [incrementalWait] hands out, before its
    first call. *)
Definition incrementalWait (first increase : Z) : waiter :=
  {| w_first := first; w_increase := increase; w_retryCount := 1 |}.

(** Modelled from the spec: how long the next call of the function sleeps. *)
Definition waitTime (w : waiter) : Z :=
  w_first w + (w_retryCount w - 1) * w_increase w.

(** The function after one more call. *)
Definition counted (w : waiter) : waiter :=
  {| w_first := w_first w; w_increase := w_increase w;
     w_retryCount := w_retryCount w + 1 |}.

(** Modelled from the spec: one call of the function [incrementalWait]
    handed out. *)
Definition wait (w : waiter) : M waiter :=
  Sleep_ (waitTime w);;
  mret (counted w).

(** Modelled from the spec: [resource.RetryError] belongs to the plugin SDK,
    which is not among the sources.  It holds the error and whether to try
    again; its two constructors give [nil] for a [nil] error. *)
Record RetryError := { Err : option error; Retryable : bool }.

Definition RetryableError (err : option error) : option RetryError :=
  match err with
  | None => None
  | Some _ => Some {| Err := err; Retryable := true |}
  end.

Definition NonRetryableError (err : option error) : option RetryError :=
  match err with
  | None => None
  | Some _ => Some {| Err := err; Retryable := false |}
  end.

(** Modelled from the spec: [resource.Retry] is the plugin SDK's helper and
    is not among the sources.  It runs [f] again for as long as [f] reports
    a retryable error and the timeout has not passed; it returns [nil] when
    [f] does, and otherwise the last error [f] reported.  [f] is a closure:
    the variables it captures are the [L] it is run on.  [rounds] bounds
    the number of runs of [f] that the model follows. *)
Fixpoint retryLoop {L : Type} (rounds : nat) (deadline : Z)
  (f : L → M (L * option RetryError)) (l : L) : M (L * option error) :=
  match rounds with
  | O => unfinished
  | S rounds' =>
      '(l, rerr) ← f l;
      match rerr with
      | None => mret (l, None)
      | Some re =>
          if Retryable re then
            t ← clock;
            if bool_decide (deadline ≤ t)%Z then mret (l, Err re)
            else retryLoop rounds' deadline f l
          else mret (l, Err re)
      end
  end.

(** Modelled from the spec: [resource.Retry(timeout, f)]; the timeout runs
    from the moment of the call. *)
Definition Retry {L : Type} (rounds : nat) (timeout : Z)
  (f : L → M (L * option RetryError)) (l : L) : M (L * option error) :=
  t ← clock;
  retryLoop rounds (t + timeout)%Z f l.

(** *** [DescribeAmqpVirtualHost] *)

Record AliyunClient := {
  RegionId : string;
  (** [NewOnsproxyClient()]: a connection, or the error *)
  NewOnsproxyClient : conn + error;
}.

Record AmqpOpenService := { client : AliyunClient }.

(** The call that the closure handed to [resource.Retry] makes. *)
Definition listCall (action : string) (request : gmap string value) : call :=
  {| c_action := action; c_protocol := None; c_method := "GET";
     c_version := "2019-12-12"; c_authType := "AK"; c_query := request;
     c_body := None; c_autoretry := true |}.

(** The closure handed to [resource.Retry]; it captures [response] and
    the [wait] function. *)
Definition attempt (cn : conn) (action : string) (request : gmap string value)
  (captured : option (gmap string value) * waiter)
  : M ((option (gmap string value) * waiter) * option RetryError) :=
  let '(_, wait_) := captured in
  '(response, err) ← DoRequest cn (listCall action request);
  match err with
  | Some _ =>
      if NeedRetry err then
        wait_ ← wait wait_;
        mret ((response, wait_), RetryableError err)
      else mret ((response, wait_), NonRetryableError err)
  | None => mret ((response, wait_), None)
  end.

(** [parts[i]] *)
Definition index (parts : list string) (i : nat) : M string :=
  match parts !! i with
  | Some p => mret p
  | None => panic
  end.

(** The [range] loop over the virtual hosts: the first one whose ["Name"]
    is [parts[1]], if any.  The type assertions panic on an entry that is
    not a map, or whose ["Name"] is not a string. *)
Fixpoint findName (parts : list string) (hosts : list value)
  : M (option (gmap string value)) :=
  match hosts with
  | [] => mret None
  | VMap m :: hosts' =>
      match m !! "Name" with
      | Some (VStr name) =>
          p ← index parts 1;
          if decide (name = p) then mret (Some m)
          else findName parts hosts'
      | _ => panic
      end
  | _ :: _ => panic
  end.

(** [response["NextToken"].(string)] in its two-result form, together with
    the test that the token is not empty. *)
Definition nextToken (response : option (gmap string value)) : option string :=
  match response with
  | Some r =>
      match r !! "NextToken" with
      | Some (VStr t) => if decide (t = "") then None else Some t
      | _ => None
      end
  | None => None
  end.

Definition notFound (id : string) (response : option (gmap string value))
  : option error :=
  WrapErrorf (Some (Error (GetNotFoundMessage "Amqp" id)))
    NotFoundWithResponse [iface response].

(** One round of the [for] loop up to [addDebug]: the retried call. *)
Definition listPage (retries : nat) (cn : conn) (action : string)
  (request : gmap string value) (response : option (gmap string value))
  : M (option (gmap string value) * option error) :=
  let wait_ := incrementalWait (3 * Second) (3 * Second) in
  '((response, _), err) ←
    Retry retries (5 * Minute) (attempt cn action request) (response, wait_);
  addDebug action response request;;
  mret (response, err).

(** The [for] loop, and the statements after it.  [pages] bounds the
    number of rounds that the model follows; the loop itself has no
    bound. *)
Fixpoint pageLoop (pages retries : nat) (cn : conn) (id action : string)
  (parts : list string) (request : gmap string value)
  (response : option (gmap string value)) (idExist : bool)
  : M (option (gmap string value) * option error) :=
  match pages with
  | O => unfinished
  | S pages' =>
      '(response, err) ← listPage retries cn action request response;
      match err with
      | Some _ =>
          mret (None,
                WrapErrorf err DefaultErrorMsg
                  [VStr id; VStr action; VStr AlibabaCloudSdkGoERROR])
      | None =>
          match jsonpath_Get "$.Data.VirtualHosts" (iface response) with
          | inr err' =>
              mret (None,
                    WrapErrorf (Some err') FailedGetAttributeMsg
                      [VStr id; VStr "$.Data.VirtualHosts"; iface response])
          | inl v =>
              match v with
              | VList hosts =>
                  if bool_decide (List.length hosts < 1)%nat then
                    mret (None, notFound id response)
                  else
                    found ← findName parts hosts;
                    match found with
                    | Some host => mret (Some host, None)
                    | None =>
                        match nextToken response with
                        | Some t =>
                            pageLoop pages' retries cn id action parts
                              (<["NextToken" := VStr t]> request)
                              response idExist
                        | None =>
                            if negb idExist then
                              mret (None, notFound id response)
                            else mret (None, err)
                        end
                    end
              | _ => panic
              end
          end
      end
  end.

Definition DescribeAmqpVirtualHost (pages retries : nat)
  (s : AmqpOpenService) (id : string)
  : M (option (gmap string value) * option error) :=
  let response : option (gmap string value) := None in
  match NewOnsproxyClient (client s) with
  | inr err => mret (None, WrapError (Some err))
  | inl cn =>
      let action := "ListVirtualHosts" in
      let '(parts, err) := ParseResourceId id 2 in
      match err with
      | Some _ => mret (None, WrapError err)
      | None =>
          p0 ← index parts 0;
          let request : gmap string value :=
            {[ "RegionId" := VStr (RegionId (client s));
               "InstanceId" := VStr p0;
               "MaxResults" := VInt 100 ]} in
          let idExist := false in
          pageLoop pages retries cn id action parts request response idExist
      end
  end.

(** *** Notions the statements below use *)

(** A host entry that the search passes over: a map whose ["Name"] is a
    string other than [name]. *)
Definition other_host (name : string) (v : value) : Prop :=
  ∃ m n, v = VMap m ∧ m !! "Name" = Some (VStr n) ∧ n ≠ name.

(** An error that [WrapError] or [WrapErrorf] produced from a cause. *)
Inductive wrapped : option error → Prop :=
| wrapped_WrapError cause : wrapped (WrapError (Some cause))
| wrapped_WrapErrorf cause msg args :
    wrapped (WrapErrorf (Some cause) msg args).

(** [st'] is [st] with more events at the end of its trace. *)
Definition extends (st st' : state) : Prop :=
  ∃ tr, trace st' = trace st ++ tr.

(** No request of [tr] is sent at or after [deadline]. *)
Definition sent_before (deadline : Z) (tr : list event) : Prop :=
  Forall (λ ev, match ev with
                | Request t _ => (t < deadline)%Z
                | _ => True
                end) tr.

(** [n] sleeps of 3 seconds times their rank, from rank [j] on. *)
Definition backoff (j n : nat) : list Z :=
  (λ k, 3 * Second * Z.of_nat k)%Z <$> seq j n.

(** A well-formed entry of the list of virtual hosts: a map whose ["Name"]
    is a string. *)
Definition is_host (v : value) : Prop :=
  ∃ m n, v = VMap m ∧ m !! "Name" = Some (VStr n).

(** The call that comes after [n] earlier ones is answered with [response]
    and no error, whatever it asks. *)
Definition answers_with (cn : conn) (n : nat)
  (response : option (gmap string value)) : Prop :=
  ∀ history rq, length history = n →
    r_err (cn history rq) = None ∧ r_response (cn history rq) = response.

(** The traces in which a sleep comes only straight after a request that
    the connection, having seen [history], failed with an error that
    [NeedRetry] accepts. *)
Inductive paced (cn : conn) : list call → list event → Prop :=
| paced_nil history : paced cn history []
| paced_request history t c tr :
    paced cn (history ++ [c]) tr →
    paced cn history (Request t c :: tr)
| paced_retry history t c d e tr :
    r_err (cn history c) = Some e →
    NeedRetry (Some e) = true →
    paced cn (history ++ [c]) tr →
    paced cn history (Request t c :: Sleep d :: tr)
| paced_debug history action response request tr :
    paced cn history tr →
    paced cn history (DebugLog action response request :: tr).

End WithPackage.
End Amqp.

(** ** The log client that refreshes its token *)

Module Sls.
Section WithTypes.
(** Go's [error], [time.Time], the shutdown channel, and the state that
    the token function reads and changes. *)
Context {error Time chan W : Type}.

(** The fields of [Client] that [CreateNormalInterface] sets; the others
    keep their zero value. *)
Record Client := {
  Endpoint : string;
  AccessKeyID : string;
  AccessKeySecret : string;
  SecurityToken : string;
}.

(** [func() (accessKeyID, accessKeySecret, securityToken string,
    expireTime time.Time, err error)] *)
Definition UpdateTokenFunction : Type :=
  W → (string * string * string * Time * option error) * W.

Record TokenAutoUpdateClient (I : Type) := {
  logClient : I;
  shutdown : chan;
  tokenUpdateFunc : UpdateTokenFunction;
  maxTryTimes : Z;
  waitIntervalMin : Z;
  waitIntervalMax : Z;
  updateTokenIntervalMin : Z;
  nextExpire : Time;
}.
Global Arguments logClient {I} _.
Global Arguments shutdown {I} _.
Global Arguments tokenUpdateFunc {I} _.
Global Arguments maxTryTimes {I} _.
Global Arguments waitIntervalMin {I} _.
Global Arguments waitIntervalMax {I} _.
Global Arguments updateTokenIntervalMin {I} _.
Global Arguments nextExpire {I} _.

(** The two implementations of [ClientInterface] that the file builds. *)
Inductive ClientInterface :=
| OfClient (c : Client)
| OfTokenAutoUpdateClient (t : TokenAutoUpdateClient ClientInterface).

(** What a [go] statement starts. *)
Inductive goroutine :=
| flushSTSToken (t : TokenAutoUpdateClient ClientInterface).

Definition CreateNormalInterface
  (endpoint accessKeyID accessKeySecret securityToken : string)
  : ClientInterface :=
  OfClient {| Endpoint := endpoint;
              AccessKeyID := accessKeyID;
              AccessKeySecret := accessKeySecret;
              SecurityToken := securityToken |}.

(** The result is the pair that the function returns, the goroutines it
    has started, and the state the token function left. *)
Definition CreateTokenAutoUpdateClient (endpoint : string)
  (tokenUpdateFunc : UpdateTokenFunction) (shutdown : chan) (w : W)
  : (option ClientInterface * option error) * list goroutine * W :=
  let '(accessKeyID, accessKeySecret, securityToken, expireTime, err, w) :=
    tokenUpdateFunc w in
  match err with
  | Some _ => ((None, err), [], w)
  | None =>
      let tauc := {|
        logClient := CreateNormalInterface endpoint accessKeyID
                       accessKeySecret securityToken;
        shutdown := shutdown;
        tokenUpdateFunc := tokenUpdateFunc;
        maxTryTimes := 3;
        waitIntervalMin := Second * 1;
        waitIntervalMax := Second * 60;
        updateTokenIntervalMin := Second * 1;
        nextExpire := expireTime;
      |} in
      ((Some (OfTokenAutoUpdateClient tauc), None), [flushSTSToken tauc], w)
  end.

(** Modelled from the spec: the operations of [TokenAutoUpdateClient] are in
    a file that is not among the sources.  Between two tries the client
    waits: the interval asked for is kept between [waitIntervalMin] and
    [waitIntervalMax]. *)
Definition waitInterval (t : TokenAutoUpdateClient ClientInterface)
  (asked : Z) : Z :=
  Z.max (waitIntervalMin t) (Z.min asked (waitIntervalMax t)).

(** Modelled from the spec: an operation of [TokenAutoUpdateClient] tries the
    call on the inner client again, after a wait, while [again] says so of
    its error, [n] times at most.  [asked] gives the interval asked for
    before each further try.  The result lists the error of every try and
    the length of every wait. *)
Fixpoint tryTimes (t : TokenAutoUpdateClient ClientInterface) (n : nat)
  (op : W → option error * W) (again : error → bool) (asked : nat → Z)
  (w : W) : list (option error) * list Z * W :=
  match n with
  | O => ([], [], w)
  | S n' =>
      let '(err, w) := op w in
      match err with
      | Some e =>
          if again e then
            let '(errs, waits, w) :=
              tryTimes t n' op again (λ i, asked (S i)) w in
            (err :: errs, waitInterval t (asked 0%nat) :: waits, w)
          else ([err], [], w)
      | None => ([err], [], w)
      end
  end.

(** Modelled from the spec: an operation tries [maxTryTimes] times at most. *)
Definition tryOperation (t : TokenAutoUpdateClient ClientInterface)
  (op : W → option error * W) (again : error → bool) (asked : nat → Z)
  (w : W) : list (option error) * list Z * W :=
  tryTimes t (Z.to_nat (maxTryTimes t)) op again asked w.

End WithTypes.
Global Arguments Client : clear implicits.
Global Arguments UpdateTokenFunction : clear implicits.
Global Arguments TokenAutoUpdateClient : clear implicits.
Global Arguments ClientInterface : clear implicits.
Global Arguments goroutine : clear implicits.
End Sls.

(** ** The id of a traffic-mirror-filter ingress rule *)

Module TrafficMirror.

(** Modelled from the spec: the resource's code is not among the sources.
    Its documentation page gives the format of the exported id:
    "<traffic_mirror_filter_id>:<traffic_mirror_filter_ingress_rule_id>". *)
Definition ruleId (traffic_mirror_filter_id
                   traffic_mirror_filter_ingress_rule_id : string) : string :=
  traffic_mirror_filter_id +:+ ":" +:+ traffic_mirror_filter_ingress_rule_id.

End TrafficMirror.

(** ** A concrete package, to run the functions on *)

Module Sample.

Inductive err :=
| Sdk (code : string)
| Plain (msg : string)
| BadId (id : string) (want got : nat)
| NoSuchKey (key : string)
| Wrap (e : err)
| Wrapf (cause : option err) (msg : string) (args : list value).

(** Follows a path "$.a.b" through nested maps. *)
Fixpoint walk (keys : list string) (v : value) : value + err :=
  match keys with
  | [] => inl v
  | k :: keys' =>
      match v with
      | VMap m =>
          match m !! k with
          | Some v' => walk keys' v'
          | None => inr (NoSuchKey k)
          end
      | _ => inr (NoSuchKey k)
      end
  end.

Definition get (path : string) (v : value) : value + err :=
  match Split path "."%char with
  | "$" :: keys => walk keys v
  | _ => inr (NoSuchKey path)
  end.

Definition throttled (e : option err) : bool :=
  match e with
  | Some (Sdk code) => bool_decide (code = "Throttling")
  | _ => false
  end.

Definition package : Package := {|
  error := err;
  WrapError := λ e, match e with Some e => Some (Wrap e) | None => None end;
  WrapErrorf := λ cause msg args, Some (Wrapf cause msg args);
  Error := Plain;
  GetNotFoundMessage := λ product id,
    "The specified " +:+ product +:+ " " +:+ id +:+ " is not found.";
  NeedRetry := throttled;
  DefaultErrorMsg := "Resource %s %s Failed!!! %s";
  FailedGetAttributeMsg := "Getting resource %s attribute by path %s failed!!! Body: %v.";
  NotFoundWithResponse := "Response: %s";
  AlibabaCloudSdkGoERROR := "[SDK alibaba-cloud-sdk-go ERROR]";
  jsonpath_Get := get;
  InvalidResourceId := BadId;
|}.

#[local] Existing Instance package.

(** A virtual host of the given name, and a page of the listing. *)
Definition host (name : string) : value := VMap {[ "Name" := VStr name ]}.

Definition page (hosts : list value) (token : option string)
  : option (gmap string value) :=
  let data : gmap string value :=
    {[ "Data" := VMap {[ "VirtualHosts" := VList hosts ]} ]} in
  Some (match token with
        | Some t => <["NextToken" := VStr t]> data
        | None => data
        end).

Definition answers (response : option (gmap string value)) : Amqp.reply :=
  {| Amqp.r_latency := 5; Amqp.r_response := response; Amqp.r_err := None |}.

Definition fails (code : string) : Amqp.reply :=
  {| Amqp.r_latency := 5; Amqp.r_response := None;
     Amqp.r_err := Some (Sdk code) |}.

(** A connection that gives the replies of a list in turn, and then a
    last one for ever. *)
Definition scripted (replies : list Amqp.reply) (last : Amqp.reply)
  : Amqp.conn :=
  λ history _, nth (length history) replies last.

Definition service (cn : Amqp.conn) : Amqp.AmqpOpenService :=
  {| Amqp.client := {| Amqp.RegionId := "cn-hangzhou";
                       Amqp.NewOnsproxyClient := inl cn |} |}.

Definition offline : Amqp.AmqpOpenService :=
  {| Amqp.client := {| Amqp.RegionId := "cn-hangzhou";
                       Amqp.NewOnsproxyClient := inr (Sdk "NoCredentials") |} |}.

Definition start : Amqp.state := {| Amqp.now := 0; Amqp.trace := [] |}.

(** A server that takes five minutes to fail every call with an error
    that [NeedRetry] accepts. *)
Definition slow : Amqp.conn :=
  λ _ _, {| Amqp.r_latency := 300000000000; Amqp.r_response := None;
            Amqp.r_err := Some (Sdk "Throttling") |}.

(** A server whose listing never ends: every page holds one host, not the
    one looked for, and a token for the next page. *)
Definition endless : Amqp.conn :=
  λ _ _, answers (page [host "other"] (Some "more")).

End Sample.

(** * What the functions do *)

Import Amqp.

Section AmqpFacts.
Context `{Package}.

Lemma bind_returns {A B} (m : M A) (f : A → M B) st a st' :
  m st = (Returns a, st') → (m ≫= f) st = f a st'.
Proof. intros E. unfold mbind, M_bind. by rewrite E. Qed.

Lemma ParseResourceId_ok id n :
  length (Split id ":"%char) = n → ParseResourceId id n = (Split id ":"%char, None).
Proof. intros E. unfold ParseResourceId. by rewrite decide_True. Qed.

Lemma ParseResourceId_err id n :
  length (Split id ":"%char) ≠ n →
  ParseResourceId id n =
    (Split id ":"%char, Some (InvalidResourceId id n (length (Split id ":"%char)))).
Proof. intros E. unfold ParseResourceId. by rewrite decide_False. Qed.

(** C1.  An id that [ParseResourceId] rejects, because it does not parse
    into exactly 2 parts, ends the call at once: the object is nil and the
    error is the parse error wrapped by [WrapError].  The state that comes
    back is the state the call started in: no request was sent (the request
    map is not even built), nothing slept, nothing logged.  Whatever the
    client factory answers, the call returns a nil object and a wrapped
    error without touching the state. *)
Theorem describe_malformed_id pages retries s id st parts e :
  ParseResourceId id 2 = (parts, Some e) →
  (∀ cn, NewOnsproxyClient (client s) = inl cn →
     DescribeAmqpVirtualHost pages retries s id st
     = (Returns (None, WrapError (Some e)), st)) ∧
  (∃ cause,
     DescribeAmqpVirtualHost pages retries s id st
     = (Returns (None, WrapError (Some cause)), st)).
Proof.
  intros Hid. unfold DescribeAmqpVirtualHost. rewrite Hid.
  destruct (NewOnsproxyClient (client s)) as [cn|e']; split.
  - done.
  - by eexists.
  - intros ? [=].
  - by eexists.
Qed.

Lemma DoRequest_run cn rq st :
  DoRequest cn rq st =
  (Returns (r_response (cn (calls (trace st)) rq), r_err (cn (calls (trace st)) rq)),
   sent st rq (cn (calls (trace st)) rq)).
Proof. reflexivity. Qed.

Lemma wait_run w st : wait w st = (Returns (counted w), slept st (waitTime w)).
Proof. reflexivity. Qed.

Lemma attempt_run cn action request resp w st :
  attempt cn action request (resp, w) st =
  let rq := listCall action request in
  let r := cn (calls (trace st)) rq in
  match r_err r with
  | Some e =>
      if NeedRetry (Some e) then
        (Returns ((r_response r, counted w),
                  Some {| Err := Some e; Retryable := true |}),
         slept (sent st rq r) (waitTime w))
      else
        (Returns ((r_response r, w),
                  Some {| Err := Some e; Retryable := false |}),
         sent st rq r)
  | None => (Returns ((r_response r, w), None), sent st rq r)
  end.
Proof.
  unfold attempt. cbn zeta.
  rewrite (bind_returns _ _ _ _ _ (DoRequest_run _ _ _)).
  destruct (r_err _) as [e|]; [|done].
  destruct (NeedRetry (Some e)); [|done].
  by rewrite (bind_returns _ _ _ _ _ (wait_run _ _)).
Qed.

Lemma attempt_ok cn action request resp w st :
  let rq := listCall action request in
  let r := cn (calls (trace st)) rq in
  r_err r = None →
  attempt cn action request (resp, w) st =
  (Returns ((r_response r, w), None), sent st rq r).
Proof. intros rq r Hr. rewrite attempt_run. cbn zeta. fold rq r. by rewrite Hr. Qed.

Lemma attempt_fatal cn action request resp w st e :
  let rq := listCall action request in
  let r := cn (calls (trace st)) rq in
  r_err r = Some e →
  NeedRetry (Some e) = false →
  attempt cn action request (resp, w) st =
  (Returns ((r_response r, w), Some {| Err := Some e; Retryable := false |}),
   sent st rq r).
Proof.
  intros rq r Hr Hn. rewrite attempt_run. cbn zeta. fold rq r. by rewrite Hr, Hn.
Qed.

Lemma attempt_retryable cn action request resp w st e :
  let rq := listCall action request in
  let r := cn (calls (trace st)) rq in
  r_err r = Some e →
  NeedRetry (Some e) = true →
  attempt cn action request (resp, w) st =
  (Returns ((r_response r, counted w), Some {| Err := Some e; Retryable := true |}),
   slept (sent st rq r) (waitTime w)).
Proof.
  intros rq r Hr Hn. rewrite attempt_run. cbn zeta. fold rq r. by rewrite Hr, Hn.
Qed.

Lemma retryLoop_step {L} rounds deadline (f : L → M (L * option RetryError)) l st l' rerr st' :
  f l st = (Returns (l', rerr), st') →
  retryLoop (S rounds) deadline f l st =
  match rerr with
  | None => (Returns (l', None), st')
  | Some re =>
      if Retryable re then
        if bool_decide (deadline ≤ now st')%Z then (Returns (l', Err re), st')
        else retryLoop rounds deadline f l' st'
      else (Returns (l', Err re), st')
  end.
Proof.
  intros E. cbn [retryLoop]. rewrite (bind_returns _ _ _ _ _ E).
  destruct rerr as [re|]; [|done]. destruct (Retryable re); [|done].
  unfold mbind, M_bind, clock. by case_bool_decide.
Qed.

Lemma Retry_run {L} rounds timeout (f : L → M (L * option RetryError)) l st :
  Retry rounds timeout f l st = retryLoop rounds (now st + timeout) f l st.
Proof. reflexivity. Qed.

Lemma listPage_run retries cn action request response st :
  listPage retries cn action request response st =
  match retryLoop retries (now st + 5 * Minute)
          (attempt cn action request)
          (response, incrementalWait (3 * Second) (3 * Second)) st with
  | (Returns ((response', _), err), st') =>
      (Returns (response', err), logged st' action response' request)
  | (Panics, st') => (Panics, st')
  | (Unfinished, st') => (Unfinished, st')
  end.
Proof.
  unfold listPage. unfold mbind at 1. unfold M_bind at 1. rewrite Retry_run.
  destruct (retryLoop _ _ _ _ _) as [[[[r w] e]| |] st']; done.
Qed.


Lemma findName_cons parts p1 m n hosts st :
  parts !! 1%nat = Some p1 →
  m !! "Name" = Some (VStr n) →
  findName parts (VMap m :: hosts) st =
  if decide (n = p1) then (Returns (Some m), st) else findName parts hosts st.
Proof.
  intros Hp Hn. cbn [findName]. rewrite Hn. unfold index. rewrite Hp.
  unfold mbind, M_bind, mret, M_ret. by case_decide.
Qed.

Lemma findName_found parts p1 pre m post st :
  parts !! 1%nat = Some p1 →
  Forall (other_host p1) pre →
  m !! "Name" = Some (VStr p1) →
  findName parts (pre ++ VMap m :: post) st = (Returns (Some m), st).
Proof.
  intros Hp Hpre Hm.
  induction Hpre as [|v pre (m' & n & -> & Hn & Hne) _ IH]; cbn [app].
  - rewrite (findName_cons _ _ _ _ _ _ Hp Hm). by rewrite decide_True.
  - rewrite (findName_cons _ _ _ _ _ _ Hp Hn). by rewrite decide_False.
Qed.

Lemma findName_none parts p1 hosts st :
  parts !! 1%nat = Some p1 →
  Forall (other_host p1) hosts →
  findName parts hosts st = (Returns None, st).
Proof.
  intros Hp Hall.
  induction Hall as [|v l (m' & n & -> & Hn & Hne) _ IH]; [done|].
  rewrite (findName_cons _ _ _ _ _ _ Hp Hn). by rewrite decide_False.
Qed.

Lemma findName_state parts hosts st res st' :
  findName parts hosts st = (res, st') → st' = st.
Proof.
  revert st res st'.
  induction hosts as [|v l IH]; intros st res st'; cbn [findName];
    unfold index, panic, mbind, M_bind, mret, M_ret.
  - by intros [= _ <-].
  - destruct v as [| | | | |m]; try by intros [= _ <-].
    destruct (m !! "Name") as [[| | |n| |]|]; try by intros [= _ <-].
    destruct (parts !! 1%nat) as [p|]; [|by intros [= _ <-]].
    case_decide; [by intros [= _ <-]|]. apply IH.
Qed.

Lemma findName_some parts hosts st m st' :
  findName parts hosts st = (Returns (Some m), st') → VMap m ∈ hosts.
Proof.
  revert st.
  induction hosts as [|v l IH]; intros st; cbn [findName];
    unfold index, panic, mbind, M_bind, mret, M_ret.
  - by intros [=].
  - destruct v as [| | | | |m']; try by intros [=].
    destruct (m' !! "Name") as [[| | |n| |]|]; try by intros [=].
    destruct (parts !! 1%nat) as [p|]; [|by intros [=]].
    case_decide.
    + intros [= -> _]. left.
    + intros E. right. eauto.
Qed.

Lemma pageLoop_unfold pages retries cn id action parts request response idExist st resp' err st' :
  listPage retries cn action request response st = (Returns (resp', err), st') →
  pageLoop (S pages) retries cn id action parts request response idExist st =
  match err with
  | Some _ =>
      (Returns (None, WrapErrorf err DefaultErrorMsg
                  [VStr id; VStr action; VStr AlibabaCloudSdkGoERROR]), st')
  | None =>
      match jsonpath_Get "$.Data.VirtualHosts" (iface resp') with
      | inr err' =>
          (Returns (None, WrapErrorf (Some err') FailedGetAttributeMsg
                      [VStr id; VStr "$.Data.VirtualHosts"; iface resp']), st')
      | inl (VList hosts) =>
          if bool_decide (length hosts < 1)%nat then
            (Returns (None, notFound id resp'), st')
          else
            match findName parts hosts st' with
            | (Returns (Some host), st'') => (Returns (Some host, None), st'')
            | (Returns None, st'') =>
                match nextToken resp' with
                | Some t =>
                    pageLoop pages retries cn id action parts
                      (<["NextToken" := VStr t]> request) resp' idExist st''
                | None =>
                    if negb idExist then (Returns (None, notFound id resp'), st'')
                    else (Returns (None, None), st'')
                end
            | (Panics, st'') => (Panics, st'')
            | (Unfinished, st'') => (Unfinished, st'')
            end
      | inl _ => (Panics, st')
      end
  end.
Proof.
  intros E. cbn [pageLoop]. rewrite (bind_returns _ _ _ _ _ E).
  destruct err as [e|]; [done|].
  destruct (jsonpath_Get _ _) as [v|e]; [|done].
  destruct v as [| | | |hosts|]; try done.
  case_bool_decide; [done|].
  unfold mbind, M_bind.
  destruct (findName parts hosts st') as [[[host|]| |] st'']; try done.
  destruct (nextToken resp'); [done|]. by destruct idExist.
Qed.

Lemma listPage_first_ok retries cn action request response st :
  let rq := listCall action request in
  let r := cn (calls (trace st)) rq in
  r_err r = None →
  listPage (S retries) cn action request response st =
  (Returns (r_response r, None), logged (sent st rq r) action (r_response r) request).
Proof.
  intros rq r Hr. rewrite listPage_run.
  by erewrite retryLoop_step by (by apply attempt_ok).
Qed.

Lemma listPage_first_fatal retries cn action request response st e :
  let rq := listCall action request in
  let r := cn (calls (trace st)) rq in
  r_err r = Some e →
  NeedRetry (Some e) = false →
  listPage (S retries) cn action request response st =
  (Returns (r_response r, Some e), logged (sent st rq r) action (r_response r) request).
Proof.
  intros rq r Hr Hn. rewrite listPage_run.
  by erewrite retryLoop_step by (by apply attempt_fatal).
Qed.

Lemma Describe_loop pages retries s id cn p0 p1 st :
  NewOnsproxyClient (client s) = inl cn →
  ParseResourceId id 2 = ([p0; p1], None) →
  DescribeAmqpVirtualHost pages retries s id st =
  pageLoop pages retries cn id "ListVirtualHosts" [p0; p1]
    {[ "RegionId" := VStr (RegionId (client s));
       "InstanceId" := VStr p0;
       "MaxResults" := VInt 100 ]} None false st.
Proof.
  intros Hc Hs. unfold DescribeAmqpVirtualHost. by rewrite Hc, Hs.
Qed.

(** C2.  With a client at hand and an id of two parts, the first call goes
    out as the GET action "ListVirtualHosts" of API version 2019-12-12, and
    its request map holds exactly RegionId (the client's region), InstanceId
    (the first part of the id) and MaxResults = 100.  When the answer
    carries a list of virtual hosts, the call returns the first entry whose
    "Name" is the second part of the id, with a nil error; the trace shows
    that one request and its debug record, nothing else. *)
Theorem describe_finds_host pages retries s id st cn p0 p1 pre m post :
  let request : gmap string value :=
    {[ "RegionId" := VStr (RegionId (client s));
       "InstanceId" := VStr p0;
       "MaxResults" := VInt 100 ]} in
  let rq := Call "ListVirtualHosts" None "GET" "2019-12-12" "AK" request None true in
  let r := cn (calls (trace st)) rq in
  NewOnsproxyClient (client s) = inl cn →
  ParseResourceId id 2 = ([p0; p1], None) →
  r_err r = None →
  jsonpath_Get "$.Data.VirtualHosts" (iface (r_response r))
    = inl (VList (pre ++ VMap m :: post)) →
  Forall (other_host p1) pre →
  m !! "Name" = Some (VStr p1) →
  DescribeAmqpVirtualHost (S pages) (S retries) s id st =
  (Returns (Some m, None),
   logged (sent st rq r) "ListVirtualHosts" (r_response r) request).
Proof.
  intros request rq r Hc Hs Hr Hj Hpre Hm.
  rewrite (Describe_loop _ _ _ _ _ _ _ _ Hc Hs).
  erewrite pageLoop_unfold by (apply listPage_first_ok; exact Hr).
  fold request. change (listCall "ListVirtualHosts" request) with rq. fold r.
  rewrite Hj. rewrite bool_decide_false by (rewrite length_app; cbn; lia).
  by erewrite findName_found.
Qed.

(** C5.  After a round of the loop whose call succeeded with [resp']: when
    the path "$.Data.VirtualHosts" cannot be read from [resp'], the result is
    a nil object and the failed-get-attribute error, which names the id and
    that path; when the list read is empty, the result is a nil object and
    the not-found error of the id.  ([pageLoop] is the [for] loop of
    [DescribeAmqpVirtualHost], which [Describe_loop] shows it enters.) *)
Theorem missing_path_or_empty_list pages retries cn id parts request response st resp' st' :
  listPage retries cn "ListVirtualHosts" request response st = (Returns (resp', None), st') →
  (∀ e, jsonpath_Get "$.Data.VirtualHosts" (iface resp') = inr e →
     pageLoop (S pages) retries cn id "ListVirtualHosts" parts request response false st =
     (Returns (None,
        WrapErrorf (Some e) FailedGetAttributeMsg
          [VStr id; VStr "$.Data.VirtualHosts"; iface resp']), st')) ∧
  (jsonpath_Get "$.Data.VirtualHosts" (iface resp') = inl (VList []) →
     pageLoop (S pages) retries cn id "ListVirtualHosts" parts request response false st =
     (Returns (None,
        WrapErrorf (Some (Error (GetNotFoundMessage "Amqp" id)))
          NotFoundWithResponse [iface resp']), st')).
Proof.
  intros E. split.
  - intros e He. rewrite (pageLoop_unfold _ _ _ _ _ _ _ _ _ _ _ _ _ E). by rewrite He.
  - intros He. rewrite (pageLoop_unfold _ _ _ _ _ _ _ _ _ _ _ _ _ E). by rewrite He.
Qed.


Lemma pageLoop_returns pages retries cn id action parts request response st obj err st' :
  pageLoop pages retries cn id action parts request response false st
    = (Returns (obj, err), st') →
  (is_Some obj ∧ err = None) ∨ (obj = None ∧ wrapped err).
Proof.
  revert request response st.
  induction pages as [|pages IH]; intros request response st; [done|].
  destruct (listPage retries cn action request response st)
    as [[[resp' err1]| |] st1] eqn:E.
  2,3: cbn [pageLoop]; unfold mbind, M_bind; by rewrite E.
  rewrite (pageLoop_unfold _ _ _ _ _ _ _ _ _ _ _ _ _ E).
  destruct err1 as [e|].
  { intros [= <- <- <-]. right. split; [done|]. constructor. }
  destruct (jsonpath_Get _ _) as [v|e].
  2:{ intros [= <- <- <-]. right. split; [done|]. constructor. }
  destruct v as [| | | |hosts|]; try done.
  case_bool_decide.
  { intros [= <- <- <-]. right. split; [done|]. constructor. }
  destruct (findName parts hosts st1) as [[[host|]| |] st2]; try done.
  { intros [= <- <- <-]. left. by split; [eexists|]. }
  destruct (nextToken resp') as [t|].
  - apply IH.
  - cbn. intros [= <- <- <-]. right. split; [done|]. constructor.
Qed.


Lemma extends_refl st : extends st st.
Proof. exists []. by rewrite app_nil_r. Qed.

Lemma extends_trans st1 st2 st3 : extends st1 st2 → extends st2 st3 → extends st1 st3.
Proof. intros [a Ha] [b Hb]. exists (a ++ b). by rewrite Hb, Ha, app_assoc. Qed.


Lemma attempt_cases cn action request resp w st :
  let rq := listCall action request in
  let r := cn (calls (trace st)) rq in
  ∃ l' rerr st',
    attempt cn action request (resp, w) st = (Returns (l', rerr), st') ∧
    ∃ tr, trace st' = trace st ++ Request (now st) rq :: tr.
Proof.
  intros rq r. rewrite attempt_run. cbn zeta. fold rq r.
  destruct (r_err r) as [e|]; [destruct (NeedRetry (Some e))|].
  - do 3 eexists. split; [done|]. exists [Sleep (waitTime w)]. cbn. by rewrite <- app_assoc.
  - do 3 eexists. split; [done|]. by exists [].
  - do 3 eexists. split; [done|]. by exists [].
Qed.

Lemma retryLoop_extends rounds deadline cn action request l st res st' :
  retryLoop rounds deadline (attempt cn action request) l st = (res, st') →
  extends st st'.
Proof.
  revert l st. induction rounds as [|rounds IH]; intros [resp w] st.
  { intros [= _ <-]. apply extends_refl. }
  destruct (attempt_cases cn action request resp w st) as (l' & rerr & st1 & E & tr & Htr).
  rewrite (retryLoop_step _ _ _ _ _ _ _ _ E).
  assert (extends st st1) as H1 by (by eexists).
  destruct rerr as [re|]; [|by intros [= _ <-]].
  destruct (Retryable re); [|by intros [= _ <-]].
  case_bool_decide; [by intros [= _ <-]|].
  intros E2. eapply extends_trans; [exact H1|]. by eapply IH.
Qed.

Lemma retryLoop_first rounds deadline cn action request l st res st' :
  retryLoop (S rounds) deadline (attempt cn action request) l st = (res, st') →
  ∃ tr, trace st' = trace st ++ Request (now st) (listCall action request) :: tr.
Proof.
  destruct l as [resp w].
  destruct (attempt_cases cn action request resp w st) as (l' & rerr & st1 & E & tr & Htr).
  rewrite (retryLoop_step _ _ _ _ _ _ _ _ E).
  assert (∀ st2, extends st1 st2 →
    ∃ tr, trace st2 = trace st ++ Request (now st) (listCall action request) :: tr) as Hx.
  { intros st2 [tr2 H2]. exists (tr ++ tr2). rewrite H2, Htr. by rewrite <- app_assoc. }
  destruct rerr as [re|]; [|intros [= _ <-]; apply Hx, extends_refl].
  destruct (Retryable re); [|intros [= _ <-]; apply Hx, extends_refl].
  case_bool_decide; [intros [= _ <-]; apply Hx, extends_refl|].
  intros E2. apply Hx. by eapply retryLoop_extends.
Qed.

Lemma listPage_extends retries cn action request response st res st' :
  listPage retries cn action request response st = (res, st') → extends st st'.
Proof.
  rewrite listPage_run.
  destruct (retryLoop _ _ _ _ _) as [[[[r w] e]| |] st1] eqn:E;
    apply retryLoop_extends in E; intros [= _ <-]; [|done..].
  eapply extends_trans; [exact E|]. by eexists.
Qed.

Lemma listPage_first retries cn action request response st res st' :
  listPage (S retries) cn action request response st = (res, st') →
  ∃ tr, trace st' = trace st ++ Request (now st) (listCall action request) :: tr.
Proof.
  rewrite listPage_run.
  destruct (retryLoop _ _ _ _ _) as [[[[r w] e]| |] st1] eqn:E;
    apply retryLoop_first in E as [tr Htr]; intros [= _ <-]; [|by eexists..].
  eexists. cbn. rewrite Htr. by rewrite <- app_assoc.
Qed.

Lemma pageLoop_extends pages retries cn id action parts request response idExist st res st' :
  pageLoop pages retries cn id action parts request response idExist st = (res, st') →
  extends st st'.
Proof.
  revert request response st. induction pages as [|pages IH]; intros request response st.
  { intros [= _ <-]. apply extends_refl. }
  destruct (listPage retries cn action request response st)
    as [[[resp' err1]| |] st1] eqn:E.
  2,3: cbn [pageLoop]; unfold mbind, M_bind; rewrite E; intros [= _ <-];
       by eapply listPage_extends.
  rewrite (pageLoop_unfold _ _ _ _ _ _ _ _ _ _ _ _ _ E).
  apply listPage_extends in E.
  destruct err1 as [e|]; [by intros [= _ <-]|].
  destruct (jsonpath_Get _ _) as [v|e]; [|by intros [= _ <-]].
  destruct v as [| | | |hosts|]; try by intros [= _ <-].
  case_bool_decide; [by intros [= _ <-]|].
  destruct (findName parts hosts st1) as [[[host|]| |] st2] eqn:F;
    apply findName_state in F as ->; try by intros [= _ <-].
  destruct (nextToken resp') as [t|].
  - intros E2. eapply extends_trans; [exact E|]. by eapply IH.
  - destruct idExist; by intros [= _ <-].
Qed.

Lemma pageLoop_first pages retries cn id action parts request response idExist st res st' :
  pageLoop (S pages) (S retries) cn id action parts request response idExist st = (res, st') →
  ∃ tr, trace st' = trace st ++ Request (now st) (listCall action request) :: tr.
Proof.
  destruct (listPage (S retries) cn action request response st)
    as [o st1] eqn:E.
  pose proof (listPage_first _ _ _ _ _ _ _ _ E) as [tr Htr].
  assert (∀ st2, extends st1 st2 →
    ∃ tr, trace st2 = trace st ++ Request (now st) (listCall action request) :: tr) as Hx.
  { intros st2 [tr2 H2]. exists (tr ++ tr2). rewrite H2, Htr. by rewrite <- app_assoc. }
  destruct o as [[resp' err1]| |].
  2,3: cbn [pageLoop]; unfold mbind, M_bind; rewrite E; intros [= _ <-];
       apply Hx, extends_refl.
  rewrite (pageLoop_unfold _ _ _ _ _ _ _ _ _ _ _ _ _ E).
  destruct err1 as [e|]; [intros [= _ <-]; apply Hx, extends_refl|].
  destruct (jsonpath_Get _ _) as [v|e]; [|intros [= _ <-]; apply Hx, extends_refl].
  destruct v as [| | | |hosts|]; try (intros [= _ <-]; apply Hx, extends_refl).
  case_bool_decide; [intros [= _ <-]; apply Hx, extends_refl|].
  destruct (findName parts hosts st1) as [[[host|]| |] st2] eqn:F;
    apply findName_state in F as ->; try (intros [= _ <-]; apply Hx, extends_refl).
  destruct (nextToken resp') as [t|].
  - intros E2. apply Hx. by eapply pageLoop_extends.
  - destruct idExist; intros [= _ <-]; apply Hx, extends_refl.
Qed.

Lemma nextToken_Some response t :
  nextToken response = Some t ↔
  ∃ r, response = Some r ∧ r !! "NextToken" = Some (VStr t) ∧ t ≠ "".
Proof.
  unfold nextToken. split.
  - destruct response as [r|]; [|done].
    destruct (r !! "NextToken") as [[| | |t'| |]|] eqn:Ht; try done.
    case_decide; [done|]. intros [= ->]. by exists r.
  - intros (r & -> & -> & Hne). by rewrite decide_False.
Qed.

Lemma nextToken_None response :
  nextToken response = None ↔
  ∀ r t, response = Some r → r !! "NextToken" = Some (VStr t) → t = "".
Proof.
  split.
  - intros Hn r t -> Ht. destruct (decide (t = "")) as [|Hne]; [done|].
    assert (nextToken (Some r) = Some t) as E by (apply nextToken_Some; eauto).
    congruence.
  - intros Hall. destruct (nextToken response) as [t|] eqn:E; [|done].
    apply nextToken_Some in E as (r & -> & Ht & Hne). by destruct (Hne (Hall r t eq_refl Ht)).
Qed.

(** C9.  After a round whose call succeeded with [resp'] and whose list of
    hosts holds no entry named as the second part of the id: if the list is
    not empty and [resp'] carries a string "NextToken" that is not empty,
    the loop goes on with the same request plus that NextToken, and the
    next thing sent is the GET call "ListVirtualHosts" with that map; if
    the list is not empty and there is no such token (absent, empty, or not
    a string), the result is a nil object and the not-found error of the
    id, [WrapErrorf (Error (GetNotFoundMessage "Amqp" id))
    NotFoundWithResponse resp']; and if the list is empty the result is
    that error whatever token is there. *)
Theorem pagination pages retries cn id parts p1 request response st resp' st' hosts :
  let loop :=
    pageLoop (S pages) retries cn id "ListVirtualHosts" parts request response false st in
  parts !! 1%nat = Some p1 →
  listPage retries cn "ListVirtualHosts" request response st = (Returns (resp', None), st') →
  jsonpath_Get "$.Data.VirtualHosts" (iface resp') = inl (VList hosts) →
  Forall (other_host p1) hosts →
  (hosts ≠ [] →
   ∀ r t, resp' = Some r → r !! "NextToken" = Some (VStr t) → t ≠ "" →
     let request' := <["NextToken" := VStr t]> request in
     loop = pageLoop pages retries cn id "ListVirtualHosts" parts request' resp' false st' ∧
     ∀ pages' retries' res st'',
       pages = S pages' → retries = S retries' → loop = (res, st'') →
       ∃ tr, trace st'' =
             trace st' ++
             Request (now st')
               (Call "ListVirtualHosts" None "GET" "2019-12-12" "AK" request'
                  None true) :: tr) ∧
  (hosts ≠ [] →
   (∀ r t, resp' = Some r → r !! "NextToken" = Some (VStr t) → t = "") →
   loop = (Returns (None,
             WrapErrorf (Some (Error (GetNotFoundMessage "Amqp" id)))
               NotFoundWithResponse [iface resp']), st')) ∧
  (hosts = [] →
   loop = (Returns (None,
             WrapErrorf (Some (Error (GetNotFoundMessage "Amqp" id)))
               NotFoundWithResponse [iface resp']), st')).
Proof.
  intros loop Hp E Hj Hall. subst loop.
  rewrite (pageLoop_unfold _ _ _ _ _ _ _ _ _ _ _ _ _ E), Hj.
  split; [|split].
  - intros Hne r t -> Ht Hnet request'.
    rewrite bool_decide_false by (destruct hosts; [done|cbn; lia]).
    rewrite (findName_none _ _ _ _ Hp Hall).
    assert (nextToken (Some r) = Some t) as -> by (apply nextToken_Some; eauto).
    split; [done|]. intros pages' retries' res st'' -> -> E2.
    by apply pageLoop_first in E2.
  - intros Hne Htok.
    rewrite bool_decide_false by (destruct hosts; [done|cbn; lia]).
    rewrite (findName_none _ _ _ _ Hp Hall).
    by apply nextToken_None in Htok as ->.
  - intros ->. by rewrite bool_decide_true by (cbn; lia).
Qed.

(** C7.  Whenever [DescribeAmqpVirtualHost] returns an error, the object is
    nil and the error is an application of [WrapError] or of [WrapErrorf] to
    a cause: no error of the SDK, of the client factory, of the id parser or
    of the path lookup comes back as it was raised. *)
Theorem describe_errors_wrapped pages retries s id st obj err st' :
  DescribeAmqpVirtualHost pages retries s id st = (Returns (obj, err), st') →
  err ≠ None →
  obj = None ∧ wrapped err.
Proof.
  unfold DescribeAmqpVirtualHost.
  destruct (NewOnsproxyClient (client s)) as [cn|e].
  2:{ intros [= <- <- <-] _. split; [done|constructor]. }
  destruct (ParseResourceId id 2) as [parts [e|]].
  { intros [= <- <- <-] _. split; [done|constructor]. }
  destruct parts as [|p0 parts]; [done|].
  unfold index. cbn [lookup list_lookup]. unfold mbind, M_bind at 1, mret, M_ret.
  intros E Herr. apply pageLoop_returns in E as [[_ ->]|[-> Hw]]; done.
Qed.

(** C8.  Given that [WrapError] and [WrapErrorf] never turn a cause into
    nil: whenever [DescribeAmqpVirtualHost] returns, either the object is a
    map and the error is nil, or the object is nil and the error is not. *)
Theorem describe_never_nil_nil pages retries s id st obj err st' :
  (∀ cause, WrapError (Some cause) ≠ None) →
  (∀ cause msg args, WrapErrorf (Some cause) msg args ≠ None) →
  DescribeAmqpVirtualHost pages retries s id st = (Returns (obj, err), st') →
  (is_Some obj ∧ err = None) ∨ (obj = None ∧ is_Some err).
Proof.
  intros Hw Hwf. unfold DescribeAmqpVirtualHost.
  assert (∀ e, wrapped e → is_Some e) as Hsome.
  { intros ? [c|c m a]; apply not_eq_None_Some; auto. }
  destruct (NewOnsproxyClient (client s)) as [cn|e].
  2:{ intros [= <- <- <-]. right. split; [done|]. apply Hsome. constructor. }
  destruct (ParseResourceId id 2) as [parts [e|]].
  { intros [= <- <- <-]. right. split; [done|]. apply Hsome. constructor. }
  destruct parts as [|p0 parts]; [done|].
  unfold index. cbn [lookup list_lookup]. unfold mbind, M_bind at 1, mret, M_ret.
  intros E. apply pageLoop_returns in E as [?|[-> Hx]]; [by left|].
  right. split; [done|]. by apply Hsome.
Qed.


Lemma calls_app a b : calls (a ++ b) = calls a ++ calls b.
Proof. apply omap_app. Qed.

Lemma sleeps_app a b : sleeps (a ++ b) = sleeps a ++ sleeps b.
Proof. apply omap_app. Qed.

Lemma retry_round_bounded rounds cn action request deadline :
  ∀ (j : nat) resp st,
    (1 ≤ j)%nat →
    (3 * Second * (Z.of_nat j - 1) * Z.of_nat j
       ≤ 2 * (now st - (deadline - 5 * Minute)))%Z →
    (now st < deadline)%Z →
    (15 ≤ rounds + j)%nat →
    ∃ l' err st' tr,
      retryLoop rounds deadline (attempt cn action request)
        (resp, {| w_first := 3 * Second; w_increase := 3 * Second;
                  w_retryCount := Z.of_nat j |}) st
      = (Returns (l', err), st') ∧
      trace st' = trace st ++ tr ∧
      (length (calls tr) + j ≤ 15)%nat ∧
      sent_before deadline tr ∧
      (∃ n, sleeps tr = backoff j n).
Proof.
  induction rounds as [|rounds IH]; intros j resp st Hj Hel Hnow Hfuel.
  { exfalso. unfold Minute, Second in *. nia. }
  set (w := {| w_first := _ |}).
  set (rq := listCall action request).
  set (r := cn (calls (trace st)) rq).
  assert (j ≤ 14)%nat as Hj14.
  { unfold Minute, Second in *. nia. }
  destruct (r_err r) as [e|] eqn:Hr; [destruct (NeedRetry (Some e)) eqn:Hn|].
  - erewrite retryLoop_step by (by apply attempt_retryable).
    fold rq r. cbn [Retryable Err].
    set (st2 := slept (sent st rq r) (waitTime w)).
    assert (waitTime w = 3 * Second * Z.of_nat j)%Z as Hw.
    { unfold waitTime, w. cbn. lia. }
    assert (now st2 = now st + Z.of_N (r_latency r) + 3 * Second * Z.of_nat j)%Z as Hnow2.
    { unfold st2, slept, sent. cbn. rewrite Hw. unfold Second. lia. }
    assert (trace st2 = trace st ++ [Request (now st) rq; Sleep (3 * Second * Z.of_nat j)%Z])
      as Htr2.
    { unfold st2, slept, sent. cbn. rewrite Hw. by rewrite <- app_assoc. }
    case_bool_decide as Hd.
    + eexists _, _, _, _. split; [done|]. split; [exact Htr2|]. split; [cbn; lia|].
      split; [by repeat constructor|]. by exists 1%nat.
    + destruct (IH (S j) (r_response r) st2) as (l' & err & st' & tr & E & Htr & Hc & Hb & n & Hs).
      * lia.
      * rewrite Hnow2. unfold Minute, Second in *. nia.
      * lia.
      * lia.
      * replace (counted w) with
          {| w_first := 3 * Second; w_increase := 3 * Second;
             w_retryCount := Z.of_nat (S j) |}
          by (unfold counted, w; cbn; f_equal; lia).
        eexists _, _, _, _. split; [exact E|].
        split; [rewrite Htr, Htr2; by rewrite <- app_assoc|].
        split; [rewrite calls_app; cbn; lia|].
        split; [apply Forall_app; split; [by repeat constructor|done]|].
        exists (S n). rewrite sleeps_app, Hs. done.
  - erewrite retryLoop_step by (by apply attempt_fatal).
    fold rq r. cbn [Retryable Err].
    eexists _, _, _, [_]. split; [done|]. split; [done|]. split; [cbn; lia|].
    split; [by repeat constructor|]. by exists 0%nat.
  - erewrite retryLoop_step by (by apply attempt_ok).
    fold rq r.
    eexists _, _, _, [_]. split; [done|]. split; [done|]. split; [cbn; lia|].
    split; [by repeat constructor|]. by exists 0%nat.
Qed.

Lemma listPage_bounded retries cn action request response st :
  (14 ≤ retries)%nat →
  ∃ resp' err st' tr n,
    listPage retries cn action request response st = (Returns (resp', err), st') ∧
    trace st' = trace st ++ tr ++ [DebugLog action resp' request] ∧
    (length (calls tr) ≤ 14)%nat ∧
    sent_before (now st + 5 * Minute) tr ∧
    sleeps tr = backoff 1 n.
Proof.
  intros Hr. rewrite listPage_run.
  destruct (retry_round_bounded retries cn action request (now st + 5 * Minute) 1
              response st) as ([resp' w'] & err & st' & tr & E & Htr & Hc & Hb & n & Hs).
  - lia.
  - unfold Minute, Second. lia.
  - unfold Minute, Second. lia.
  - lia.
  - change (Z.of_nat 1) with 1%Z in E. unfold incrementalWait. rewrite E.
    eexists _, _, _, tr, n. split; [done|].
    split; [cbn; rewrite Htr; by rewrite <- app_assoc|].
    split; [lia|]. done.
Qed.
End AmqpFacts.

Section RetryPolicy.
Context `{Package}.

Lemma retryLoop_last rounds deadline cn action request l st l' err st' :
  retryLoop rounds deadline (attempt cn action request) l st = (Returns (l', err), st') →
  ∃ tr cs,
    trace st' = trace st ++ tr ∧
    calls tr = cs ++ [listCall action request] ∧
    err = r_err (cn (calls (trace st) ++ cs) (listCall action request)).
Proof.
  revert l st. induction rounds as [|rounds IH]; intros [resp w] st; [done|].
  set (rq := listCall action request).
  set (r := cn (calls (trace st)) rq).
  destruct (r_err r) as [e|] eqn:Hr; [destruct (NeedRetry (Some e)) eqn:Hn|].
  - erewrite retryLoop_step by (by apply attempt_retryable).
    fold rq r. cbn [Retryable Err].
    set (st2 := slept (sent st rq r) (waitTime w)).
    assert (trace st2 = trace st ++ [Request (now st) rq; Sleep (waitTime w)]) as Htr2.
    { unfold st2, slept, sent. cbn. by rewrite <- app_assoc. }
    case_bool_decide.
    + intros [= _ <- <-]. exists [Request (now st) rq; Sleep (waitTime w)], [].
      split; [done|]. split; [done|]. by rewrite app_nil_r.
    + intros E. destruct (IH _ _ E) as (tr & cs & Htr & Hc & He).
      exists ([Request (now st) rq; Sleep (waitTime w)] ++ tr), (rq :: cs).
      split; [by rewrite Htr, Htr2, <- app_assoc|].
      split; [by rewrite calls_app, Hc|].
      rewrite He, Htr2, calls_app. cbn. by rewrite <- app_assoc.
  - erewrite retryLoop_step by (by apply attempt_fatal).
    fold rq r. intros [= _ <- <-]. exists [Request (now st) rq], [].
    split; [done|]. split; [done|]. by rewrite app_nil_r.
  - erewrite retryLoop_step by (by apply attempt_ok).
    fold rq r. intros [= _ <- <-]. exists [Request (now st) rq], [].
    split; [done|]. split; [done|]. by rewrite app_nil_r.
Qed.

Lemma listPage_last retries cn action request response st resp' err st' :
  listPage retries cn action request response st = (Returns (resp', err), st') →
  ∃ tr cs,
    trace st' = trace st ++ tr ∧
    calls tr = cs ++ [listCall action request] ∧
    err = r_err (cn (calls (trace st) ++ cs) (listCall action request)).
Proof.
  rewrite listPage_run.
  destruct (retryLoop _ _ _ _ _) as [[[[r w] e]| |] st1] eqn:E; intros [= <- <- <-].
  apply retryLoop_last in E as (tr & cs & Htr & Hc & He).
  exists (tr ++ [DebugLog action r request]), cs. cbn.
  split; [by rewrite Htr, <- app_assoc|]. split; [|done].
  rewrite calls_app, Hc. cbn. by rewrite app_nil_r.
Qed.

Lemma pageLoop_last pages retries cn id action parts request response idExist st
  obj err st' :
  pageLoop pages retries cn id action parts request response idExist st
    = (Returns (obj, err), st') →
  ∃ tr cs c,
    trace st' = trace st ++ tr ∧
    calls tr = cs ++ [c] ∧
    ∀ e, r_err (cn (calls (trace st) ++ cs) c) = Some e →
      obj = None ∧
      err = WrapErrorf (Some e) DefaultErrorMsg
              [VStr id; VStr action; VStr AlibabaCloudSdkGoERROR].
Proof.
  revert request response st.
  induction pages as [|pages IH]; intros request response st; [done|].
  destruct (listPage retries cn action request response st)
    as [[[resp' err1]| |] st1] eqn:E.
  2,3: cbn [pageLoop]; unfold mbind, M_bind; by rewrite E.
  rewrite (pageLoop_unfold _ _ _ _ _ _ _ _ _ _ _ _ _ E).
  destruct (listPage_last _ _ _ _ _ _ _ _ _ E) as (tr1 & cs1 & Htr1 & Hc1 & He1).
  assert (err1 = None →
          ∀ o, (Returns o, st1) = (Returns (obj, err), st') →
          ∃ tr cs c,
            trace st' = trace st ++ tr ∧ calls tr = cs ++ [c] ∧
            ∀ e, r_err (cn (calls (trace st) ++ cs) c) = Some e →
              obj = None ∧
              err = WrapErrorf (Some e) DefaultErrorMsg
                      [VStr id; VStr action; VStr AlibabaCloudSdkGoERROR]) as Hok.
  { intros -> o [= _ <-]. exists tr1, cs1, (listCall action request).
    split; [done|]. split; [done|]. intros e He. congruence. }
  destruct err1 as [e1|].
  { intros [= <- <- <-]. exists tr1, cs1, (listCall action request).
    split; [done|]. split; [done|]. intros e He. split; [done|]. congruence. }
  destruct (jsonpath_Get _ _) as [v|e]; [|by apply Hok].
  destruct v as [| | | |hosts|]; try done.
  case_bool_decide; [by apply Hok|].
  destruct (findName parts hosts st1) as [[[host|]| |] st2] eqn:F;
    try done; apply findName_state in F as ->; [by apply Hok|].
  destruct (nextToken resp') as [t|].
  - intros E2. apply IH in E2 as (tr2 & cs2 & c & Htr2 & Hc2 & He2).
    exists (tr1 ++ tr2), (calls tr1 ++ cs2), c.
    split; [by rewrite Htr2, Htr1, <- app_assoc|].
    split; [by rewrite calls_app, Hc2, <- app_assoc|].
    intros e He. apply He2. by rewrite Htr1, calls_app, <- app_assoc.
  - destruct idExist; by apply Hok.
Qed.

Lemma max_wait : (0 `max` (3 * Second) = 3 * Second)%Z.
Proof. reflexivity. Qed.

Lemma first_wait : waitTime (incrementalWait (3 * Second) (3 * Second)) = (3 * Second)%Z.
Proof. reflexivity. Qed.

End RetryPolicy.

Section RetryBounds.
Context `{Package} {E Time chan W : Type}.

Lemma tryTimes_bounds (t : Sls.TokenAutoUpdateClient E Time chan W _) n
  (op : W → option E * W) again asked w :
  (Sls.waitIntervalMin t ≤ Sls.waitIntervalMax t)%Z →
  (length (Sls.tryTimes t n op again asked w).1.1 ≤ n)%nat ∧
  Forall (λ d, Sls.waitIntervalMin t ≤ d ≤ Sls.waitIntervalMax t)%Z
         (Sls.tryTimes t n op again asked w).1.2.
Proof.
  intros Hb. revert asked w.
  induction n as [|n IH]; intros asked w; cbn [Sls.tryTimes]; [by split|].
  destruct (op w) as [[e|] w1]; [|split; [cbn; lia|constructor]].
  destruct (again e); [|split; [cbn; lia|constructor]].
  specialize (IH (λ i, asked (S i)) w1).
  destruct (Sls.tryTimes t n op again (λ i, asked (S i)) w1) as [[errs waits] w2].
  cbn [fst snd length] in *. destruct IH as [IH1 IH2]. split; [lia|].
  constructor; [|done]. unfold Sls.waitInterval.
  split; [apply Z.le_max_l|apply Z.max_lub; [done|apply Z.le_min_r]].
Qed.


End RetryBounds.

Section TokenClient.
Context {E Time chan W : Type}.

(** C10.  When the first call of the token function gives an error, the
    result is a nil client and that error, and no goroutine is started.
    Otherwise the result is a [TokenAutoUpdateClient] whose inner client is
    [CreateNormalInterface] of the endpoint and the fetched credentials,
    with [maxTryTimes] 3, wait bounds of 1 second and 60 seconds, and
    [nextExpire] the fetched expiry; its refresher is started. *)
Theorem create_token_auto_update_client endpoint
  (f : Sls.UpdateTokenFunction E Time W) (shutdown : chan) w
  accessKeyID accessKeySecret securityToken expireTime err w' :
  f w = ((accessKeyID, accessKeySecret, securityToken, expireTime, err), w') →
  match err with
  | Some e =>
      Sls.CreateTokenAutoUpdateClient endpoint f shutdown w
      = ((None, Some e), [], w')
  | None =>
      ∃ t,
        Sls.CreateTokenAutoUpdateClient endpoint f shutdown w
        = ((Some (Sls.OfTokenAutoUpdateClient t), None), [Sls.flushSTSToken t], w') ∧
        Sls.logClient t
        = Sls.CreateNormalInterface endpoint accessKeyID accessKeySecret securityToken ∧
        Sls.logClient t
        = Sls.OfClient {| Sls.Endpoint := endpoint;
                          Sls.AccessKeyID := accessKeyID;
                          Sls.AccessKeySecret := accessKeySecret;
                          Sls.SecurityToken := securityToken |} ∧
        Sls.maxTryTimes t = 3%Z ∧
        Sls.waitIntervalMin t = (1 * Second)%Z ∧
        Sls.waitIntervalMax t = (60 * Second)%Z ∧
        Sls.nextExpire t = expireTime ∧
        Sls.tokenUpdateFunc t = f ∧
        Sls.shutdown t = shutdown
  end.
Proof.
  intros Hf. unfold Sls.CreateTokenAutoUpdateClient. rewrite Hf.
  destruct err as [e|]; [done|]. eexists. split; [done|]. by cbn.
Qed.
End TokenClient.

Lemma Split_free sep s : free_of sep s → Split s sep = [s].
Proof.
  induction s as [|c r IH]; simpl; [done|].
  intros [Hc Hr]. rewrite decide_False by done. by rewrite IH.
Qed.

Lemma Split_app sep a b :
  free_of sep a → Split (a +:+ String sep b) sep = a :: Split b sep.
Proof.
  induction a as [|c r IH]; simpl.
  - intros _. by rewrite decide_True.
  - intros [Hc Hr]. rewrite decide_False by done. by rewrite IH.
Qed.

Lemma Split_length_pos s sep : (1 ≤ length (Split s sep))%nat.
Proof.
  induction s as [|c r IH]; simpl; [lia|].
  case_decide; simpl; [lia|]. destruct (Split r sep); simpl in *; lia.
Qed.

Lemma Split_length_app sep a b :
  length (Split (a +:+ String sep b) sep) = (length (Split a sep) + length (Split b sep))%nat.
Proof.
  induction a as [|c r IH]; simpl.
  - by rewrite decide_True.
  - case_decide; simpl; [by rewrite IH|].
    pose proof (Split_length_pos (r +:+ String sep b) sep).
    pose proof (Split_length_pos r sep).
    destruct (Split (r +:+ String sep b) sep) as [|p ps];
      destruct (Split r sep) as [|q qs]; simpl in *; lia.
Qed.

Lemma Split_length_one s sep : length (Split s sep) = 1%nat → free_of sep s.
Proof.
  induction s as [|c r IH]; simpl; [done|].
  case_decide as Hc.
  - simpl. pose proof (Split_length_pos r sep). lia.
  - intros Hl. split; [done|]. apply IH.
    pose proof (Split_length_pos r sep).
    destruct (Split r sep); simpl in *; [lia|done].
Qed.

Section IdFormat.
Context `{Package}.

(** C6, as amended.  The id of an ingress rule is the filter id, a colon,
    and the rule id.  Parsing it gives back the two when neither holds a
    colon; when one of them does, the id has more than 2 parts and the
    parser rejects it. *)
Theorem rule_id_round_trip filter rule :
  (free_of ":"%char filter → free_of ":"%char rule →
   ParseResourceId (TrafficMirror.ruleId filter rule) 2 = ([filter; rule], None)) ∧
  (¬ (free_of ":"%char filter ∧ free_of ":"%char rule) →
   ∃ parts e,
     ParseResourceId (TrafficMirror.ruleId filter rule) 2 = (parts, Some e) ∧
     (2 < length parts)%nat).
Proof.
  split.
  - intros Hf Hr.
    assert (Split (TrafficMirror.ruleId filter rule) ":"%char = [filter; rule]) as Hs.
    { unfold TrafficMirror.ruleId.
      change (":" +:+ rule) with (String ":"%char rule).
      rewrite Split_app by done. by rewrite Split_free. }
    rewrite ParseResourceId_ok; by rewrite Hs.
  - intros Hn.
    assert (2 < length (Split (TrafficMirror.ruleId filter rule) ":"%char))%nat as Hl.
    { unfold TrafficMirror.ruleId.
      change (":" +:+ rule) with (String ":"%char rule).
      rewrite Split_length_app.
      pose proof (Split_length_pos filter ":"%char).
      pose proof (Split_length_pos rule ":"%char).
      destruct (decide (length (Split filter ":"%char) = 1%nat)) as [Hf|Hf];
        [destruct (decide (length (Split rule ":"%char) = 1%nat)) as [Hr|Hr]|]; [|lia..].
      destruct Hn. split; by apply Split_length_one. }
    eexists _, _. split; [apply ParseResourceId_err; lia|done].
Qed.

End IdFormat.

(** ** More on [DescribeAmqpVirtualHost] *)

Section MoreAmqpFacts.
Context `{Package}.

(** *** The object returned *)

Lemma findName_sound parts hosts st m st' :
  findName parts hosts st = (Returns (Some m), st') →
  VMap m ∈ hosts ∧ ∃ p1, parts !! 1%nat = Some p1 ∧ m !! "Name" = Some (VStr p1).
Proof.
  revert st.
  induction hosts as [|v l IH]; intros st; cbn [findName];
    unfold index, panic, mbind, M_bind, mret, M_ret.
  - by intros [=].
  - destruct v as [| | | | |m']; try by intros [=].
    destruct (m' !! "Name") as [[| | |n| |]|] eqn:Hn; try by intros [=].
    destruct (parts !! 1%nat) as [p|]; [|by intros [=]].
    case_decide as Hp.
    + intros [= -> _]. split; [left|]. exists p. by rewrite Hn, Hp.
    + intros E. destruct (IH _ E) as [Hin Hp1]. split; [by right|done].
Qed.

Lemma listPage_logged retries cn action request response st resp' err st' :
  listPage retries cn action request response st = (Returns (resp', err), st') →
  ∃ tr, trace st' = tr ++ [DebugLog action resp' request].
Proof.
  rewrite listPage_run.
  destruct (retryLoop _ _ _ _ _) as [[[[r w] e]| |] st1]; intros [= <- <- <-].
  by eexists.
Qed.

Lemma pageLoop_sound pages retries cn id action parts request response idExist st m err st' :
  pageLoop pages retries cn id action parts request response idExist st
    = (Returns (Some m, err), st') →
  err = None ∧
  (∃ p1, parts !! 1%nat = Some p1 ∧ m !! "Name" = Some (VStr p1)) ∧
  ∃ tr resp rq hosts,
    trace st' = tr ++ [DebugLog action resp rq] ∧
    jsonpath_Get "$.Data.VirtualHosts" (iface resp) = inl (VList hosts) ∧
    VMap m ∈ hosts.
Proof.
  revert request response st.
  induction pages as [|pages IH]; intros request response st; [done|].
  destruct (listPage retries cn action request response st)
    as [[[resp' err1]| |] st1] eqn:E.
  2,3: cbn [pageLoop]; unfold mbind, M_bind; by rewrite E.
  rewrite (pageLoop_unfold _ _ _ _ _ _ _ _ _ _ _ _ _ E).
  destruct err1 as [e|]; [done|].
  destruct (jsonpath_Get _ _) as [v|e] eqn:Hj; [|done].
  destruct v as [| | | |hosts|]; try done.
  case_bool_decide; [done|].
  destruct (findName parts hosts st1) as [[[host|]| |] st2] eqn:F; try done.
  - pose proof (findName_state _ _ _ _ _ F) as ->.
    apply findName_sound in F as [Hin Hp].
    intros [= <- <- <-]. split; [done|]. split; [done|].
    destruct (listPage_logged _ _ _ _ _ _ _ _ _ E) as [tr Htr].
    by exists tr, resp', request, hosts.
  - destruct (nextToken resp') as [t|]; [apply IH|]. by destruct idExist.
Qed.

(** X1.  When the call returns an object, the error is nil, the object's "Name"
    is the second part of the id, and the object is an entry of the list
    of virtual hosts of the response that was logged last. *)
Theorem describe_result_sound pages retries s id st m err st' :
  DescribeAmqpVirtualHost pages retries s id st = (Returns (Some m, err), st') →
  err = None ∧
  ∃ parts p1 tr resp rq hosts,
    ParseResourceId id 2 = (parts, None) ∧
    parts !! 1%nat = Some p1 ∧
    m !! "Name" = Some (VStr p1) ∧
    trace st' = tr ++ [DebugLog "ListVirtualHosts" resp rq] ∧
    jsonpath_Get "$.Data.VirtualHosts" (iface resp) = inl (VList hosts) ∧
    VMap m ∈ hosts.
Proof.
  unfold DescribeAmqpVirtualHost.
  destruct (NewOnsproxyClient (client s)) as [cn|e]; [|done].
  destruct (ParseResourceId id 2) as [parts [e|]]; [done|].
  destruct parts as [|p0 parts]; [done|].
  unfold index. cbn [lookup list_lookup]. unfold mbind, M_bind at 1, mret, M_ret.
  intros E. apply pageLoop_sound in E as (-> & (p1 & Hp & Hm) & tr & resp & rq & hosts & ?).
  split; [done|]. by exists (p0 :: parts), p1, tr, resp, rq, hosts.
Qed.

(** *** The requests sent *)

Lemma retryLoop_calls rounds deadline cn action request l st res st' :
  retryLoop rounds deadline (attempt cn action request) l st = (res, st') →
  ∃ tr, trace st' = trace st ++ tr ∧
        Forall (λ c, c = listCall action request) (calls tr).
Proof.
  revert l st. induction rounds as [|rounds IH]; intros [resp w] st.
  { intros [= _ <-]. exists []. by rewrite app_nil_r. }
  set (rq := listCall action request).
  set (r := cn (calls (trace st)) rq).
  assert (∀ st1 tr1 (o : outcome (option (gmap string value) * waiter * option error)),
            trace st1 = trace st ++ tr1 →
            Forall (λ c, c = rq) (calls tr1) →
            (o, st1) = (res, st') →
            ∃ tr, trace st' = trace st ++ tr ∧ Forall (λ c, c = rq) (calls tr)) as Hret.
  { intros st1 tr1 o Htr Hc [= _ <-]. by exists tr1. }
  destruct (r_err r) as [e|] eqn:Hr; [destruct (NeedRetry (Some e)) eqn:Hn|].
  - erewrite retryLoop_step by (by apply attempt_retryable).
    fold rq r. cbn [Retryable Err].
    set (st2 := slept (sent st rq r) (waitTime w)).
    assert (trace st2 = trace st ++ [Request (now st) rq; Sleep (waitTime w)]) as Htr2.
    { unfold st2, slept, sent. cbn. by rewrite <- app_assoc. }
    case_bool_decide.
    + apply (Hret st2 _ _ Htr2). by repeat constructor.
    + intros E. destruct (IH _ _ E) as (tr & Htr & Hc).
      exists ([Request (now st) rq; Sleep (waitTime w)] ++ tr).
      split; [by rewrite Htr, Htr2, <- app_assoc|].
      rewrite calls_app. apply Forall_app. split; [by repeat constructor|done].
  - erewrite retryLoop_step by (by apply attempt_fatal).
    fold rq r. cbn [Retryable Err].
    apply (Hret (sent st rq r) [Request (now st) rq]); [done|by repeat constructor].
  - erewrite retryLoop_step by (by apply attempt_ok).
    fold rq r.
    apply (Hret (sent st rq r) [Request (now st) rq]); [done|by repeat constructor].
Qed.

Lemma listPage_calls retries cn action request response st res st' :
  listPage retries cn action request response st = (res, st') →
  ∃ tr, trace st' = trace st ++ tr ∧
        Forall (λ c, c = listCall action request) (calls tr).
Proof.
  rewrite listPage_run.
  destruct (retryLoop _ _ _ _ _) as [[[[r w] e]| |] st1] eqn:E;
    apply retryLoop_calls in E as (tr & Htr & Hc); intros [= _ <-].
  - exists (tr ++ [DebugLog action r request]). cbn.
    split; [by rewrite Htr, <- app_assoc|]. rewrite calls_app. cbn. by rewrite app_nil_r.
  - by exists tr.
  - by exists tr.
Qed.

Lemma pageLoop_calls pages retries cn id action parts
  (request0 request : gmap string value) response idExist st res st' :
  (∀ k, k ≠ "NextToken" → request !! k = request0 !! k) →
  pageLoop pages retries cn id action parts request response idExist st = (res, st') →
  ∃ tr, trace st' = trace st ++ tr ∧
        Forall (λ c, ∃ q, c = listCall action q ∧
                          ∀ k, k ≠ "NextToken" → q !! k = request0 !! k) (calls tr).
Proof.
  revert request response st. induction pages as [|pages IH]; intros request response st Hq.
  { intros [= _ <-]. exists []. by rewrite app_nil_r. }
  destruct (listPage retries cn action request response st)
    as [o st1] eqn:E.
  destruct (listPage_calls _ _ _ _ _ _ _ _ E) as (tr1 & Htr1 & Hc1).
  assert (Forall (λ c, ∃ q, c = listCall action q ∧
                            ∀ k, k ≠ "NextToken" → q !! k = request0 !! k) (calls tr1)) as Hc1'.
  { eapply Forall_impl; [exact Hc1|]. intros c ->. by exists request. }
  assert (∀ (o' : outcome (option (gmap string value) * option error)),
            (o', st1) = (res, st') →
            ∃ tr, trace st' = trace st ++ tr ∧
              Forall (λ c, ∃ q, c = listCall action q ∧
                                ∀ k, k ≠ "NextToken" → q !! k = request0 !! k) (calls tr)) as Hret.
  { intros o' [= _ <-]. by exists tr1. }
  destruct o as [[resp' err1]| |].
  2,3: cbn [pageLoop]; unfold mbind, M_bind; rewrite E; apply Hret.
  rewrite (pageLoop_unfold _ _ _ _ _ _ _ _ _ _ _ _ _ E).
  destruct err1 as [e|]; [apply Hret|].
  destruct (jsonpath_Get _ _) as [v|e]; [|apply Hret].
  destruct v as [| | | |hosts|]; try apply Hret.
  case_bool_decide; [apply Hret|].
  destruct (findName parts hosts st1) as [[[host|]| |] st2] eqn:F;
    apply findName_state in F as ->; try apply Hret.
  destruct (nextToken resp') as [t|].
  - intros E2. apply IH in E2 as (tr2 & Htr2 & Hc2).
    + exists (tr1 ++ tr2). split; [by rewrite Htr2, Htr1, <- app_assoc|].
      rewrite calls_app. by apply Forall_app.
    + intros k Hk. rewrite lookup_insert_ne by done. by apply Hq.
  - destruct idExist; apply Hret.
Qed.

(** X2.  Whatever the call ends with, every request it has sent is the GET
    action "ListVirtualHosts" of version 2019-12-12 with auth type AK, no
    protocol, no body and autoretry on, and its query agrees
    with the map built from the region and the first part of the id on
    every key but "NextToken". *)
Theorem describe_requests_uniform pages retries s id st :
  ∃ tr,
    trace (DescribeAmqpVirtualHost pages retries s id st).2 = trace st ++ tr ∧
    Forall (λ c, ∃ q p0,
              c = Call "ListVirtualHosts" None "GET" "2019-12-12" "AK" q None true ∧
              (ParseResourceId id 2).1 !! 0%nat = Some p0 ∧
              ∀ k, k ≠ "NextToken" →
                q !! k =
                ({[ "RegionId" := VStr (RegionId (client s));
                    "InstanceId" := VStr p0;
                    "MaxResults" := VInt 100 ]} : gmap string value) !! k)
           (calls tr).
Proof.
  unfold DescribeAmqpVirtualHost.
  destruct (NewOnsproxyClient (client s)) as [cn|e].
  2:{ exists []. by rewrite app_nil_r. }
  destruct (ParseResourceId id 2) as [parts [e|]].
  { exists []. by rewrite app_nil_r. }
  destruct parts as [|p0 parts].
  { exists []. by rewrite app_nil_r. }
  unfold index. cbn [lookup list_lookup]. unfold mbind, M_bind at 1, mret, M_ret.
  destruct (pageLoop _ _ _ _ _ _ _ _ _ _) as [res st'] eqn:E.
  eapply pageLoop_calls in E as (tr & Htr & Hc); [|done].
  exists tr. split; [done|].
  eapply Forall_impl; [exact Hc|]. intros c (q & -> & Hq). by exists q, p0.
Qed.

(** *** Panics *)

Lemma findName_hosts parts hosts st :
  (1 < length parts)%nat →
  Forall is_host hosts →
  (findName parts hosts st).1 ≠ Panics.
Proof.
  intros Hlen Hall.
  destruct (lookup_lt_is_Some_2 parts 1 Hlen) as [p1 Hp].
  induction Hall as [|v l (m & n & -> & Hn) _ IH]; [done|].
  rewrite (findName_cons _ _ _ _ _ _ Hp Hn). by case_decide.
Qed.

Lemma retryLoop_response rounds deadline cn action request l st resp' w' err st' :
  retryLoop rounds deadline (attempt cn action request) l st
    = (Returns ((resp', w'), err), st') →
  ∃ history rq, resp' = r_response (cn history rq).
Proof.
  revert l st. induction rounds as [|rounds IH]; intros [resp w] st; [done|].
  set (rq := listCall action request).
  set (r := cn (calls (trace st)) rq).
  destruct (r_err r) as [e|] eqn:Hr; [destruct (NeedRetry (Some e)) eqn:Hn|].
  - erewrite retryLoop_step by (by apply attempt_retryable).
    fold rq r. cbn [Retryable Err].
    case_bool_decide; [|apply IH]. intros [= <- _ _ _]. by eexists _, _.
  - erewrite retryLoop_step by (by apply attempt_fatal).
    fold rq r. intros [= <- _ _ _]. by eexists _, _.
  - erewrite retryLoop_step by (by apply attempt_ok).
    fold rq r. intros [= <- _ _ _]. by eexists _, _.
Qed.

Lemma retryLoop_no_panic rounds deadline cn action request l st :
  (retryLoop rounds deadline (attempt cn action request) l st).1 ≠ Panics.
Proof.
  revert l st. induction rounds as [|rounds IH]; intros [resp w] st; [done|].
  destruct (attempt_cases cn action request resp w st) as (l' & rerr & st1 & E & _).
  rewrite (retryLoop_step _ _ _ _ _ _ _ _ E).
  destruct rerr as [re|]; [|done]. destruct (Retryable re); [|done].
  case_bool_decide; [done|]. apply IH.
Qed.

Lemma listPage_response retries cn action request response st resp' err st' :
  listPage retries cn action request response st = (Returns (resp', err), st') →
  ∃ history rq, resp' = r_response (cn history rq).
Proof.
  rewrite listPage_run.
  destruct (retryLoop _ _ _ _ _) as [[[[r w] e]| |] st1] eqn:E; intros [= <- <- <-].
  by eapply retryLoop_response.
Qed.

Lemma listPage_no_panic retries cn action request response st :
  (listPage retries cn action request response st).1 ≠ Panics.
Proof.
  rewrite listPage_run.
  pose proof (retryLoop_no_panic retries (now st + 5 * Minute) cn action request
                (response, incrementalWait (3 * Second) (3 * Second)) st) as Hn.
  by destruct (retryLoop _ _ _ _ _) as [[[[r w] e]| |] st1].
Qed.

Lemma pageLoop_no_panic pages retries cn id action parts request response idExist st :
  (1 < length parts)%nat →
  (∀ history rq hosts_or,
     jsonpath_Get "$.Data.VirtualHosts" (iface (r_response (cn history rq)))
       = inl hosts_or →
     ∃ hosts, hosts_or = VList hosts ∧ Forall is_host hosts) →
  (pageLoop pages retries cn id action parts request response idExist st).1 ≠ Panics.
Proof.
  intros Hlen Hwf. revert request response st.
  induction pages as [|pages IH]; intros request response st; [done|].
  pose proof (listPage_no_panic retries cn action request response st) as Hnp.
  destruct (listPage retries cn action request response st)
    as [[[resp' err1]| |] st1] eqn:E; [|done|].
  2:{ cbn [pageLoop]. unfold mbind, M_bind. by rewrite E. }
  rewrite (pageLoop_unfold _ _ _ _ _ _ _ _ _ _ _ _ _ E).
  destruct err1 as [e|]; [done|].
  destruct (listPage_response _ _ _ _ _ _ _ _ _ E) as (history & rq & ->).
  destruct (jsonpath_Get _ _) as [v|e] eqn:Hj; [|done].
  destruct (Hwf _ _ _ Hj) as (hosts & -> & Hhosts).
  case_bool_decide; [done|].
  pose proof (findName_hosts parts hosts st1 Hlen Hhosts) as Hf.
  destruct (findName parts hosts st1) as [[[host|]| |] st2]; try done.
  destruct (nextToken _) as [t|]; [apply IH|]. by destruct idExist.
Qed.

(** X3.  The call does not panic as long as the parser accepts only ids of two
    parts and every list of virtual hosts that can be read from an answer
    of the connection is a list of maps with a string "Name". *)
Theorem describe_no_panic pages retries s id st :
  (∀ parts, ParseResourceId id 2 = (parts, None) → length parts = 2%nat) →
  (∀ cn history rq v,
     NewOnsproxyClient (client s) = inl cn →
     jsonpath_Get "$.Data.VirtualHosts" (iface (r_response (cn history rq))) = inl v →
     ∃ hosts, v = VList hosts ∧ Forall is_host hosts) →
  (DescribeAmqpVirtualHost pages retries s id st).1 ≠ Panics.
Proof.
  intros Hparts Hwf. unfold DescribeAmqpVirtualHost.
  destruct (NewOnsproxyClient (client s)) as [cn|e]; [|done].
  destruct (ParseResourceId id 2) as [parts [e|]]; [done|].
  specialize (Hparts parts eq_refl).
  destruct parts as [|p0 parts]; [done|].
  unfold index. cbn [lookup list_lookup]. unfold mbind, M_bind at 1, mret, M_ret.
  apply pageLoop_no_panic; [cbn in *; lia|]. intros. by eapply Hwf.
Qed.

(** X4.  After a round whose call succeeded with [resp']: if what is read at
    "$.Data.VirtualHosts" is not a list (null, say), the loop panics; and
    so it does if, before any entry with the name looked for, the list
    holds an entry that is not a map with a string "Name". *)
Theorem malformed_hosts_panic pages retries cn id action parts p1 request response
  idExist st resp' st' :
  listPage retries cn action request response st = (Returns (resp', None), st') →
  parts !! 1%nat = Some p1 →
  (∀ v, jsonpath_Get "$.Data.VirtualHosts" (iface resp') = inl v →
        (∀ hosts, v ≠ VList hosts) →
        pageLoop (S pages) retries cn id action parts request response idExist st
        = (Panics, st')) ∧
  (∀ pre bad post,
     jsonpath_Get "$.Data.VirtualHosts" (iface resp') = inl (VList (pre ++ bad :: post)) →
     Forall (other_host p1) pre →
     ¬ is_host bad →
     pageLoop (S pages) retries cn id action parts request response idExist st
     = (Panics, st')).
Proof.
  intros E Hp. rewrite (pageLoop_unfold _ _ _ _ _ _ _ _ _ _ _ _ _ E). split.
  - intros v -> Hv. destruct v as [| | | |hosts|]; try done. by destruct (Hv hosts).
  - intros pre bad post -> Hpre Hbad.
    rewrite bool_decide_false by (rewrite length_app; cbn; lia).
    assert (findName parts (pre ++ bad :: post) st' = (Panics, st')) as ->; [|done].
    induction Hpre as [|v pre (m & n & -> & Hn & Hne) _ IH]; cbn [app].
    + cbn [findName]. destruct bad as [| | | | |m]; try done.
      destruct (m !! "Name") as [[| | |n| |]|] eqn:Hn; try done.
      destruct Hbad. by exists m, n.
    + rewrite (findName_cons _ _ _ _ _ _ Hp Hn). by rewrite decide_False.
Qed.

Lemma pageLoop_found pages retries cn id action parts p1 request response
  idExist st resp' st' pre m post :
  listPage retries cn action request response st = (Returns (resp', None), st') →
  parts !! 1%nat = Some p1 →
  jsonpath_Get "$.Data.VirtualHosts" (iface resp') = inl (VList (pre ++ VMap m :: post)) →
  Forall (other_host p1) pre →
  m !! "Name" = Some (VStr p1) →
  pageLoop (S pages) retries cn id action parts request response idExist st
  = (Returns (Some m, None), st').
Proof.
  intros E Hp Hj Hpre Hm. rewrite (pageLoop_unfold _ _ _ _ _ _ _ _ _ _ _ _ _ E), Hj.
  rewrite bool_decide_false by (rewrite length_app; cbn; lia).
  by erewrite findName_found.
Qed.

(** X5.  After a round whose call succeeded with [resp'], in any round of the
    loop: if the list holds an entry with the name looked for, the first
    such entry is returned with a nil error, whether or not [resp'] carries
    a NextToken, and nothing more is sent: the state is the one the round
    left. *)
Theorem match_ends_listing pages retries cn id action parts p1 request response
  idExist st resp' st' pre m post :
  listPage retries cn action request response st = (Returns (resp', None), st') →
  parts !! 1%nat = Some p1 →
  jsonpath_Get "$.Data.VirtualHosts" (iface resp') = inl (VList (pre ++ VMap m :: post)) →
  Forall (other_host p1) pre →
  m !! "Name" = Some (VStr p1) →
  pageLoop (S pages) retries cn id action parts request response idExist st
  = (Returns (Some m, None), st').
Proof. apply pageLoop_found. Qed.

(** *** Sleeps *)

Lemma paced_app cn history tr1 tr2 :
  paced cn history tr1 →
  paced cn (history ++ calls tr1) tr2 →
  paced cn history (tr1 ++ tr2).
Proof.
  intros H1. revert tr2.
  induction H1 as [h|h t c tr _ IH|h t c d e tr Hr Hn _ IH|h a r q tr _ IH];
    intros tr2 H2; cbn [app].
  - by rewrite app_nil_r in H2.
  - constructor. apply IH. by rewrite <- app_assoc.
  - eapply paced_retry; [done..|]. apply IH. by rewrite <- app_assoc.
  - constructor. by apply IH.
Qed.

Lemma paced_sleep cn history tr i d :
  paced cn history tr →
  tr !! i = Some (Sleep d) →
  ∃ j t c e,
    i = S j ∧ tr !! j = Some (Request t c) ∧
    r_err (cn (history ++ calls (take j tr)) c) = Some e ∧
    NeedRetry (Some e) = true.
Proof.
  intros Hp. revert i.
  induction Hp as [h|h t c tr _ IH|h t c d0 e tr Hr Hn _ IH|h a r q tr _ IH]; intros i.
  - done.
  - destruct i as [|i]; [done|]. cbn. intros Hi.
    destruct (IH _ Hi) as (j & t' & c' & e' & -> & Hj & He & Hn').
    exists (S j), t', c', e'. split; [done|]. split; [done|].
    split; [|done]. cbn. by rewrite <- app_assoc in He.
  - destruct i as [|[|i]]; [done| |].
    + intros _. exists 0%nat, t, c, e. cbn. by rewrite app_nil_r.
    + cbn. intros Hi.
      destruct (IH _ Hi) as (j & t' & c' & e' & -> & Hj & He & Hn').
      exists (S (S j)), t', c', e'. split; [done|]. split; [done|].
      split; [|done]. cbn. by rewrite <- app_assoc in He.
  - destruct i as [|i]; [done|]. cbn. intros Hi.
    destruct (IH _ Hi) as (j & t' & c' & e' & -> & Hj & He & Hn').
    by exists (S j), t', c', e'.
Qed.

Lemma retryLoop_paced rounds deadline cn action request l st res st' :
  retryLoop rounds deadline (attempt cn action request) l st = (res, st') →
  ∃ tr, trace st' = trace st ++ tr ∧ paced cn (calls (trace st)) tr.
Proof.
  revert l st. induction rounds as [|rounds IH]; intros [resp w] st.
  { intros [= _ <-]. exists []. split; [by rewrite app_nil_r|constructor]. }
  set (rq := listCall action request).
  set (r := cn (calls (trace st)) rq).
  destruct (r_err r) as [e|] eqn:Hr; [destruct (NeedRetry (Some e)) eqn:Hn|].
  - erewrite retryLoop_step by (by apply attempt_retryable).
    fold rq r. cbn [Retryable Err].
    set (st2 := slept (sent st rq r) (waitTime w)).
    assert (trace st2 = trace st ++ [Request (now st) rq; Sleep (waitTime w)]) as Htr2.
    { unfold st2, slept, sent. cbn. by rewrite <- app_assoc. }
    case_bool_decide.
    + intros [= _ <-]. eexists. split; [exact Htr2|].
      eapply paced_retry; [exact Hr|exact Hn|constructor].
    + intros E. destruct (IH _ _ E) as (tr & Htr & Hp).
      exists ([Request (now st) rq; Sleep (waitTime w)] ++ tr).
      split; [by rewrite Htr, Htr2, <- app_assoc|].
      cbn [app]. eapply paced_retry; [exact Hr|exact Hn|].
      rewrite Htr2, calls_app in Hp. exact Hp.
  - erewrite retryLoop_step by (by apply attempt_fatal).
    fold rq r. intros [= _ <-]. exists [Request (now st) rq].
    split; [done|]. repeat constructor.
  - erewrite retryLoop_step by (by apply attempt_ok).
    fold rq r. intros [= _ <-]. exists [Request (now st) rq].
    split; [done|]. repeat constructor.
Qed.

Lemma listPage_paced retries cn action request response st res st' :
  listPage retries cn action request response st = (res, st') →
  ∃ tr, trace st' = trace st ++ tr ∧ paced cn (calls (trace st)) tr.
Proof.
  rewrite listPage_run.
  destruct (retryLoop _ _ _ _ _) as [[[[r w] e]| |] st1] eqn:E;
    apply retryLoop_paced in E as (tr & Htr & Hp); intros [= _ <-].
  - exists (tr ++ [DebugLog action r request]). cbn.
    split; [by rewrite Htr, <- app_assoc|].
    apply paced_app; [done|]. repeat constructor.
  - by exists tr.
  - by exists tr.
Qed.

Lemma pageLoop_paced pages retries cn id action parts request response idExist st res st' :
  pageLoop pages retries cn id action parts request response idExist st = (res, st') →
  ∃ tr, trace st' = trace st ++ tr ∧ paced cn (calls (trace st)) tr.
Proof.
  revert request response st. induction pages as [|pages IH]; intros request response st.
  { intros [= _ <-]. exists []. split; [by rewrite app_nil_r|constructor]. }
  destruct (listPage retries cn action request response st)
    as [o st1] eqn:E.
  destruct (listPage_paced _ _ _ _ _ _ _ _ E) as (tr1 & Htr1 & Hp1).
  assert (∀ (o' : outcome (option (gmap string value) * option error)),
            (o', st1) = (res, st') →
            ∃ tr, trace st' = trace st ++ tr ∧ paced cn (calls (trace st)) tr) as Hret.
  { intros o' [= _ <-]. by exists tr1. }
  destruct o as [[resp' err1]| |].
  2,3: cbn [pageLoop]; unfold mbind, M_bind; rewrite E; apply Hret.
  rewrite (pageLoop_unfold _ _ _ _ _ _ _ _ _ _ _ _ _ E).
  destruct err1 as [e|]; [apply Hret|].
  destruct (jsonpath_Get _ _) as [v|e]; [|apply Hret].
  destruct v as [| | | |hosts|]; try apply Hret.
  case_bool_decide; [apply Hret|].
  destruct (findName parts hosts st1) as [[[host|]| |] st2] eqn:F;
    apply findName_state in F as ->; try apply Hret.
  destruct (nextToken resp') as [t|].
  - intros E2. apply IH in E2 as (tr2 & Htr2 & Hp2).
    exists (tr1 ++ tr2). split; [by rewrite Htr2, Htr1, <- app_assoc|].
    apply paced_app; [done|]. by rewrite Htr1, calls_app in Hp2.
  - destruct idExist; apply Hret.
Qed.

(** X6.  Whatever the call ends with, it has slept only straight after a request
    that the connection failed with an error that [NeedRetry] accepts:
    never before the first request, never twice in a row, never after a
    request that succeeded or failed for good. *)
Theorem describe_sleeps_after_retryable pages retries s id st cn :
  NewOnsproxyClient (client s) = inl cn →
  ∃ tr,
    trace (DescribeAmqpVirtualHost pages retries s id st).2 = trace st ++ tr ∧
    ∀ i d, tr !! i = Some (Sleep d) →
      ∃ j t c e,
        i = S j ∧ tr !! j = Some (Request t c) ∧
        r_err (cn (calls (trace st) ++ calls (take j tr)) c) = Some e ∧
        NeedRetry (Some e) = true.
Proof.
  intros Hc.
  assert (∃ tr, trace (DescribeAmqpVirtualHost pages retries s id st).2 = trace st ++ tr ∧
                paced cn (calls (trace st)) tr) as (tr & Htr & Hp).
  { unfold DescribeAmqpVirtualHost. rewrite Hc.
    destruct (ParseResourceId id 2) as [parts [e|]].
    { exists []. split; [by rewrite app_nil_r|constructor]. }
    destruct parts as [|p0 parts].
    { exists []. split; [by rewrite app_nil_r|constructor]. }
    unfold index. cbn [lookup list_lookup]. unfold mbind, M_bind at 1, mret, M_ret.
    destruct (pageLoop _ _ _ _ _ _ _ _ _ _) as [res st'] eqn:E.
    by apply pageLoop_paced in E. }
  exists tr. split; [done|]. intros i d Hi. by eapply paced_sleep.
Qed.

(** *** Listings of several pages *)

Lemma answers_with_ok retries cn action request response st resp :
  answers_with cn (length (calls (trace st))) resp →
  ∃ st1,
    listPage (S retries) cn action request response st = (Returns (resp, None), st1) ∧
    calls (trace st1) = calls (trace st) ++ [listCall action request].
Proof.
  intros Ha. destruct (Ha (calls (trace st)) (listCall action request) eq_refl) as [He Hr].
  eexists. split.
  - rewrite listPage_first_ok by done. by rewrite Hr.
  - cbn. rewrite !calls_app. cbn. by rewrite app_nil_r.
Qed.

Lemma pageLoop_listing pages retries cn id action p0 p1 (request : gmap string value)
  response idExist st
  (before : list (option (gmap string value) * list value * string)) fin :
  (∀ i resp hosts t, before !! i = Some (resp, hosts, t) →
     answers_with cn (length (calls (trace st)) + i) resp ∧
     jsonpath_Get "$.Data.VirtualHosts" (iface resp) = inl (VList hosts) ∧
     hosts ≠ [] ∧ Forall (other_host p1) hosts ∧
     (∃ r, resp = Some r ∧ r !! "NextToken" = Some (VStr t)) ∧ t ≠ "") →
  (∀ pages' (q : gmap string value) resp0 st1,
     length (calls (trace st1)) = (length (calls (trace st)) + length before)%nat →
     ∃ st2,
       pageLoop (S pages') (S retries) cn id action [p0; p1] q resp0 idExist st1
         = (fin, st2) ∧
       calls (trace st2) = calls (trace st1) ++ [listCall action q]) →
  (length before < pages)%nat →
  ∃ st',
    pageLoop pages (S retries) cn id action [p0; p1] request response idExist st
      = (fin, st') ∧
    calls (trace st') =
      calls (trace st) ++
      listCall action request ::
      ((λ p, listCall action (<["NextToken" := VStr p.2]> request)) <$> before).
Proof.
  revert pages request response st.
  induction before as [|[[resp hosts] t] rest IH]; intros pages request response st Hb Hfin Hlt.
  { destruct pages as [|pages]; [cbn in Hlt; lia|].
    apply Hfin. cbn. lia. }
  destruct pages as [|pages]; [cbn in Hlt; lia|].
  destruct (Hb 0%nat resp hosts t eq_refl) as (Ha & Hj & Hne & Hall & (r & -> & Ht) & Htne).
  rewrite Nat.add_0_r in Ha.
  destruct (answers_with_ok retries cn action request response st _ Ha) as (st1 & E & Hc1).
  rewrite (pageLoop_unfold _ _ _ _ _ _ _ _ _ _ _ _ _ E), Hj.
  rewrite bool_decide_false by (destruct hosts; [done|cbn; lia]).
  rewrite (findName_none _ p1) by done.
  assert (nextToken (Some r) = Some t) as -> by (apply nextToken_Some; eauto).
  assert (length (calls (trace st1)) = S (length (calls (trace st)))) as Hlen.
  { rewrite Hc1, length_app. cbn. lia. }
  destruct (IH pages (<["NextToken" := VStr t]> request) (Some r) st1) as (st' & E' & Hc').
  - intros i resp' hosts' t' Hi. rewrite Hlen.
    replace (S (length (calls (trace st))) + i)%nat
      with (length (calls (trace st)) + S i)%nat by lia.
    by apply Hb.
  - intros pages' q resp0 st2 Hl. apply Hfin. rewrite Hl, Hlen. cbn. lia.
  - cbn in Hlt. lia.
  - exists st'. split; [done|]. rewrite Hc', Hc1, <- app_assoc. f_equal.
    cbn [app fmap list_fmap]. do 2 f_equal.
    apply list_fmap_ext. intros _ y _. cbn. by rewrite insert_insert_eq.
Qed.

(** X7.  A listing spread over pages.  Let the answers to the first calls be the
    pages of [before], each with a list of hosts that is not empty and
    holds none of the name looked for, and with a NextToken; let the answer
    to the next call hold the name.  Then, given rounds enough, the call
    returns the first host of that name on that page, and it has sent one
    request per page: the first with the request as built, each later one
    with the NextToken of the page before it put in. *)
Theorem describe_finds_host_on_later_page pages retries s id st cn p0 p1
  (before : list (option (gmap string value) * list value * string))
  last pre m post :
  let request : gmap string value :=
    {[ "RegionId" := VStr (RegionId (client s));
       "InstanceId" := VStr p0;
       "MaxResults" := VInt 100 ]} in
  NewOnsproxyClient (client s) = inl cn →
  ParseResourceId id 2 = ([p0; p1], None) →
  (∀ i resp hosts t, before !! i = Some (resp, hosts, t) →
     answers_with cn (length (calls (trace st)) + i) resp ∧
     jsonpath_Get "$.Data.VirtualHosts" (iface resp) = inl (VList hosts) ∧
     hosts ≠ [] ∧ Forall (other_host p1) hosts ∧
     (∃ r, resp = Some r ∧ r !! "NextToken" = Some (VStr t)) ∧ t ≠ "") →
  answers_with cn (length (calls (trace st)) + length before) last →
  jsonpath_Get "$.Data.VirtualHosts" (iface last)
    = inl (VList (pre ++ VMap m :: post)) →
  Forall (other_host p1) pre →
  m !! "Name" = Some (VStr p1) →
  (length before < pages)%nat →
  ∃ st',
    DescribeAmqpVirtualHost pages (S retries) s id st = (Returns (Some m, None), st') ∧
    calls (trace st') =
      calls (trace st) ++
      listCall "ListVirtualHosts" request ::
      ((λ p, listCall "ListVirtualHosts" (<["NextToken" := VStr p.2]> request))
         <$> before).
Proof.
  intros request Hc Hid Hb Hlast Hj Hpre Hm Hlt.
  rewrite (Describe_loop _ _ _ _ _ _ _ _ Hc Hid). fold request.
  apply (pageLoop_listing _ _ _ _ _ _ p1); [done| |done].
  intros pages' q resp0 st1 Hlen. rewrite <- Hlen in Hlast.
  destruct (answers_with_ok retries cn "ListVirtualHosts" q resp0 st1 _ Hlast)
    as (st2 & E & Hc2).
  exists st2. split; [|done]. by eapply pageLoop_found.
Qed.

(** X8.  A listing that ends without the host.  Let the answers to the first
    calls be the pages of [before], as above, and let the answer to the
    next call hold no host of the name looked for and no NextToken (none,
    an empty one, or one that is not a string).  Then, given rounds enough,
    the call returns a nil object and the not-found error of the id, after
    one request per page. *)
Theorem describe_not_found_at_end_of_listing pages retries s id st cn p0 p1
  (before : list (option (gmap string value) * list value * string))
  last hosts :
  let request : gmap string value :=
    {[ "RegionId" := VStr (RegionId (client s));
       "InstanceId" := VStr p0;
       "MaxResults" := VInt 100 ]} in
  NewOnsproxyClient (client s) = inl cn →
  ParseResourceId id 2 = ([p0; p1], None) →
  (∀ i resp hosts t, before !! i = Some (resp, hosts, t) →
     answers_with cn (length (calls (trace st)) + i) resp ∧
     jsonpath_Get "$.Data.VirtualHosts" (iface resp) = inl (VList hosts) ∧
     hosts ≠ [] ∧ Forall (other_host p1) hosts ∧
     (∃ r, resp = Some r ∧ r !! "NextToken" = Some (VStr t)) ∧ t ≠ "") →
  answers_with cn (length (calls (trace st)) + length before) last →
  jsonpath_Get "$.Data.VirtualHosts" (iface last) = inl (VList hosts) →
  Forall (other_host p1) hosts →
  (∀ r t, last = Some r → r !! "NextToken" = Some (VStr t) → t = "") →
  (length before < pages)%nat →
  ∃ st',
    DescribeAmqpVirtualHost pages (S retries) s id st
      = (Returns (None,
           WrapErrorf (Some (Error (GetNotFoundMessage "Amqp" id)))
             NotFoundWithResponse [iface last]), st') ∧
    calls (trace st') =
      calls (trace st) ++
      listCall "ListVirtualHosts" request ::
      ((λ p, listCall "ListVirtualHosts" (<["NextToken" := VStr p.2]> request))
         <$> before).
Proof.
  intros request Hc Hid Hb Hlast Hj Hall Htok Hlt.
  rewrite (Describe_loop _ _ _ _ _ _ _ _ Hc Hid). fold request.
  apply (pageLoop_listing _ _ _ _ _ _ p1); [done| |done].
  intros pages' q resp0 st1 Hlen. rewrite <- Hlen in Hlast.
  destruct (answers_with_ok retries cn "ListVirtualHosts" q resp0 st1 _ Hlast)
    as (st2 & E & Hc2).
  exists st2. split; [|done].
  rewrite (pageLoop_unfold _ _ _ _ _ _ _ _ _ _ _ _ _ E), Hj.
  case_bool_decide; [done|].
  rewrite (findName_none _ p1) by done.
  by apply nextToken_None in Htok as ->.
Qed.
End MoreAmqpFacts.

Section Endless.
Context `{Package}.

Lemma pageLoop_endless pages retries cn id action p0 p1 request response idExist st :
  (∀ history rq,
     r_err (cn history rq) = None ∧
     ∃ r hosts t,
       r_response (cn history rq) = Some r ∧
       jsonpath_Get "$.Data.VirtualHosts" (VMap r) = inl (VList hosts) ∧
       hosts ≠ [] ∧ Forall (other_host p1) hosts ∧
       r !! "NextToken" = Some (VStr t) ∧ t ≠ "") →
  ∃ st',
    pageLoop pages retries cn id action [p0; p1] request response idExist st
      = (Unfinished, st') ∧
    ((0 < retries)%nat →
     length (calls (trace st')) = (length (calls (trace st)) + pages)%nat).
Proof.
  intros Hcn. revert request response st.
  induction pages as [|pages IH]; intros request response st.
  { eexists. split; [done|]. intros _. cbn. lia. }
  destruct retries as [|retries].
  { eexists. split; [|lia]. cbn [pageLoop]. unfold mbind, M_bind.
    rewrite listPage_run. by cbn. }
  destruct (Hcn (calls (trace st)) (listCall action request))
    as (He & r & hosts & t & Hr & Hj & Hne & Hall & Ht & Htne).
  erewrite pageLoop_unfold by (by apply listPage_first_ok).
  rewrite Hr. cbn [iface]. rewrite Hj.
  rewrite bool_decide_false by (destruct hosts; [done|cbn; lia]).
  rewrite (findName_none _ p1) by done.
  assert (nextToken (Some r) = Some t) as -> by (apply nextToken_Some; eauto).
  edestruct IH as (st' & E & Hlen). exists st'. split; [exact E|].
  intros Hpos. rewrite (Hlen Hpos). cbn. rewrite !calls_app, !length_app. cbn. lia.
Qed.

(** X9.  The loop over the pages has no bound of its own.  Against a
    connection that answers every call with a page whose list of hosts is
    not empty, holds no host of the name looked for and comes with a
    NextToken, the call does not return however many rounds are followed,
    and it sends one request more with each round. *)
Theorem describe_endless_listing pages retries s id st cn p0 p1 :
  NewOnsproxyClient (client s) = inl cn →
  ParseResourceId id 2 = ([p0; p1], None) →
  (∀ history rq,
     r_err (cn history rq) = None ∧
     ∃ r hosts t,
       r_response (cn history rq) = Some r ∧
       jsonpath_Get "$.Data.VirtualHosts" (VMap r) = inl (VList hosts) ∧
       hosts ≠ [] ∧ Forall (other_host p1) hosts ∧
       r !! "NextToken" = Some (VStr t) ∧ t ≠ "") →
  ∃ st',
    DescribeAmqpVirtualHost pages retries s id st = (Unfinished, st') ∧
    ((0 < retries)%nat →
     length (calls (trace st')) = (length (calls (trace st)) + pages)%nat).
Proof.
  intros Hc Hid Hcn. rewrite (Describe_loop _ _ _ _ _ _ _ _ Hc Hid).
  by apply pageLoop_endless.
Qed.
End Endless.

#[local] Existing Instance Sample.package.

(** C6 does not hold of every pair: with a colon inside the filter id the
    composed id has three parts and is rejected. *)
Lemma rule_id_with_colon :
  ParseResourceId (TrafficMirror.ruleId "tmf-a:b" "tmr-c") 2
  = (["tmf-a"; "b"; "tmr-c"], Some (Sample.BadId "tmf-a:b:tmr-c" 2 3)).
Proof. reflexivity. Qed.

(** C6 at the pair "tmf-a", "tmr-c". *)
Lemma rule_id_round_trip_witness :
  ParseResourceId (TrafficMirror.ruleId "tmf-a" "tmr-c") 2 = (["tmf-a"; "tmr-c"], None).
Proof.
  apply (proj1 (rule_id_round_trip "tmf-a" "tmr-c")); cbn; intuition discriminate.
Defined.

Lemma endless_get :
  jsonpath_Get "$.Data.VirtualHosts"
    (iface (Sample.page [Sample.host "other"] (Some "more")))
  = inl (VList [Sample.host "other"]).
Proof. reflexivity. Qed.

Lemma endless_token :
  nextToken (Sample.page [Sample.host "other"] (Some "more")) = Some "more".
Proof. reflexivity. Qed.

Lemma endless_loop pages retries id action p0 request response st :
  ∃ st', pageLoop pages retries Sample.endless id action [p0; "vhost"]
           request response false st = (Unfinished, st').
Proof.
  revert request response st. induction pages as [|pages IH]; intros request response st.
  { by eexists. }
  destruct retries as [|retries].
  { eexists. cbn [pageLoop]. unfold mbind, M_bind. rewrite listPage_run. by cbn. }
  erewrite pageLoop_unfold by (by apply listPage_first_ok).
  cbn [Sample.endless Sample.answers r_response].
  rewrite endless_get. rewrite bool_decide_false by (cbn; lia).
  erewrite (findName_none _ "vhost") by
    (first [done | repeat constructor; eexists _, "other"; by split]).
  rewrite endless_token. apply IH.
Qed.

(** The loop over the pages has no bound of its own: against a server whose
    listing never ends, the call does not return, however many rounds of
    either loop are followed. *)
Lemma endless_listing_never_returns :
  ¬ ∃ pages retries result st',
      DescribeAmqpVirtualHost pages retries (Sample.service Sample.endless)
        "instance:vhost" Sample.start
      = (Returns result, st').
Proof.
  intros (pages & retries & result & st' & E).
  rewrite (Describe_loop _ _ _ _ Sample.endless "instance" "vhost") in E by done.
  destruct (endless_loop pages retries "instance:vhost" "ListVirtualHosts" "instance"
              {[ "RegionId" := VStr "cn-hangzhou";
                 "InstanceId" := VStr "instance";
                 "MaxResults" := VInt 100 ]} None Sample.start) as [st'' E'].
  cbn in E. rewrite E' in E. discriminate.
Qed.

(** C1 at the id "vhost-only". *)
Lemma describe_malformed_id_witness :
  DescribeAmqpVirtualHost 3 14 (Sample.service Sample.endless) "vhost-only" Sample.start
  = (Returns (None, Some (Sample.Wrap (Sample.BadId "vhost-only" 2 1))), Sample.start).
Proof.
  apply (proj1 (describe_malformed_id 3 14 (Sample.service Sample.endless)
                  "vhost-only" Sample.start ["vhost-only"]
                  (Sample.BadId "vhost-only" 2 1) eq_refl) Sample.endless).
  reflexivity.
Defined.

(** C2 at the id "instance:vhost" and a page of two hosts. *)
Lemma describe_finds_host_witness :
  fst (DescribeAmqpVirtualHost 1 1
         (Sample.service
            (Sample.scripted []
               (Sample.answers
                  (Sample.page [Sample.host "other"; Sample.host "vhost"] None))))
         "instance:vhost" Sample.start)
  = Returns (Some {[ "Name" := VStr "vhost" ]}, None).
Proof.
  rewrite (describe_finds_host 0 0 _ "instance:vhost" Sample.start
             (Sample.scripted []
                (Sample.answers
                   (Sample.page [Sample.host "other"; Sample.host "vhost"] None)))
             "instance" "vhost" [Sample.host "other"] {[ "Name" := VStr "vhost" ]} []).
  - reflexivity.
  - reflexivity.
  - reflexivity.
  - reflexivity.
  - reflexivity.
  - constructor; [|constructor]. exists {[ "Name" := VStr "other" ]}, "other".
    split; [reflexivity|]. split; [reflexivity|discriminate].
  - reflexivity.
Defined.

(** C5 at an answer with no "Data". *)
Lemma missing_path_or_empty_list_witness :
  pageLoop 1 1 (Sample.scripted [] (Sample.answers (Some ∅))) "instance:vhost"
    "ListVirtualHosts" ["instance"; "vhost"] ∅ None false Sample.start
  = (Returns (None,
       Some (Sample.Wrapf (Some (Sample.NoSuchKey "Data")) FailedGetAttributeMsg
               [VStr "instance:vhost"; VStr "$.Data.VirtualHosts"; VMap ∅])),
     {| now := 5;
        trace := [Request 0 (listCall "ListVirtualHosts" ∅);
                  DebugLog "ListVirtualHosts" (Some ∅) ∅] |}).
Proof.
  apply (proj1 (missing_path_or_empty_list 0 1
                  (Sample.scripted [] (Sample.answers (Some ∅))) "instance:vhost"
                  ["instance"; "vhost"] ∅ None Sample.start (Some ∅) _ eq_refl)).
  reflexivity.
Defined.

(** C7 at a client factory that fails. *)
Lemma describe_errors_wrapped_witness :
  (None : option (gmap string value)) = None ∧
  wrapped (Some (Sample.Wrap (Sample.Sdk "NoCredentials"))).
Proof.
  apply (describe_errors_wrapped 1 1 Sample.offline "instance:vhost" Sample.start
           None (Some (Sample.Wrap (Sample.Sdk "NoCredentials"))) Sample.start).
  - reflexivity.
  - discriminate.
Defined.

(** C8 at a client factory that fails. *)
Lemma describe_never_nil_nil_witness :
  (is_Some (None : option (gmap string value)) ∧
   Some (Sample.Wrap (Sample.Sdk "NoCredentials")) = None) ∨
  ((None : option (gmap string value)) = None ∧
   is_Some (Some (Sample.Wrap (Sample.Sdk "NoCredentials")))).
Proof.
  apply (describe_never_nil_nil 1 1 Sample.offline "instance:vhost" Sample.start
           None (Some (Sample.Wrap (Sample.Sdk "NoCredentials"))) Sample.start).
  - discriminate.
  - discriminate.
  - reflexivity.
Defined.

(** C9 at the first page of the endless listing. *)
Lemma pagination_witness :
  pageLoop 2 1 Sample.endless "instance:vhost" "ListVirtualHosts"
    ["instance"; "vhost"] ∅ None false Sample.start
  = pageLoop 1 1 Sample.endless "instance:vhost" "ListVirtualHosts"
      ["instance"; "vhost"] {[ "NextToken" := VStr "more" ]}
      (Sample.page [Sample.host "other"] (Some "more")) false
      {| now := 5;
         trace := [Request 0 (listCall "ListVirtualHosts" ∅);
                   DebugLog "ListVirtualHosts"
                     (Sample.page [Sample.host "other"] (Some "more")) ∅] |}.
Proof.
  refine (proj1 (proj1 (pagination 1 1 Sample.endless "instance:vhost"
                   ["instance"; "vhost"] "vhost" ∅ None Sample.start
                   (Sample.page [Sample.host "other"] (Some "more")) _
                   [Sample.host "other"] eq_refl eq_refl eq_refl _) _ _ "more" eq_refl _ _)).
  - constructor; [|constructor]. exists {[ "Name" := VStr "other" ]}, "other".
    split; [reflexivity|]. split; [reflexivity|discriminate].
  - discriminate.
  - reflexivity.
  - discriminate.
Defined.

(** C10 at a token function that is denied. *)
Lemma create_token_auto_update_client_witness :
  Sls.CreateTokenAutoUpdateClient (error := string) (chan := unit) "cn-hangzhou.log.aliyuncs.com"
    (λ n : nat, (("id", "secret", "token", 1700000000%Z, Some "denied"), S n)) () 0%nat
  = ((None, Some "denied"), [], 1%nat).
Proof.
  apply (create_token_auto_update_client "cn-hangzhou.log.aliyuncs.com"
           (λ n : nat, (("id", "secret", "token", 1700000000%Z, Some "denied"), S n)) ()
           0%nat "id" "secret" "token" 1700000000%Z (Some "denied") 1%nat eq_refl).
Defined.

(** ** More runs on the sample connections *)

Lemma host_other p1 name :
  name ≠ p1 → other_host p1 (Sample.host name).
Proof. intros Hn. exists {[ "Name" := VStr name ]}, name. by split. Qed.

Lemma scripted_answers replies last n reply :
  nth n replies last = Sample.answers reply →
  answers_with (Sample.scripted replies last) n reply.
Proof. intros Hn history rq <-. unfold Sample.scripted. by rewrite Hn. Qed.

(** X1 at a host found on the first page. *)
Lemma describe_result_sound_witness :
  (None : option Sample.err) = None ∧
  ∃ parts p1 tr resp rq hosts,
    ParseResourceId "instance:vhost" 2 = (parts, None) ∧
    parts !! 1%nat = Some p1 ∧
    ({[ "Name" := VStr "vhost" ]} : gmap string value) !! "Name" = Some (VStr p1) ∧
    [Request 0 (listCall "ListVirtualHosts"
                  {[ "RegionId" := VStr "cn-hangzhou";
                     "InstanceId" := VStr "instance";
                     "MaxResults" := VInt 100 ]});
     DebugLog "ListVirtualHosts" (Sample.page [Sample.host "vhost"] None)
       {[ "RegionId" := VStr "cn-hangzhou";
          "InstanceId" := VStr "instance";
          "MaxResults" := VInt 100 ]}]
    = tr ++ [DebugLog "ListVirtualHosts" resp rq] ∧
    jsonpath_Get "$.Data.VirtualHosts" (iface resp) = inl (VList hosts) ∧
    VMap {[ "Name" := VStr "vhost" ]} ∈ hosts.
Proof.
  apply (describe_result_sound 1 1
           (Sample.service
              (Sample.scripted []
                 (Sample.answers (Sample.page [Sample.host "vhost"] None))))
           "instance:vhost" Sample.start {[ "Name" := VStr "vhost" ]} None
           {| now := 5;
              trace := [Request 0 (listCall "ListVirtualHosts"
                                     {[ "RegionId" := VStr "cn-hangzhou";
                                        "InstanceId" := VStr "instance";
                                        "MaxResults" := VInt 100 ]});
                        DebugLog "ListVirtualHosts"
                          (Sample.page [Sample.host "vhost"] None)
                          {[ "RegionId" := VStr "cn-hangzhou";
                             "InstanceId" := VStr "instance";
                             "MaxResults" := VInt 100 ]}] |}).
  reflexivity.
Defined.

(** X3 at a server of well-formed pages. *)
Lemma describe_no_panic_witness :
  (DescribeAmqpVirtualHost 3 3
     (Sample.service
        (Sample.scripted []
           (Sample.answers (Sample.page [Sample.host "vhost"] (Some "more")))))
     "instance:other" Sample.start).1 ≠ Panics.
Proof.
  apply describe_no_panic.
  - intros parts [= <-]. reflexivity.
  - intros cn history rq v [= <-]. unfold Sample.scripted.
    destruct (length history); cbn [nth];
      (intros [= <-]; eexists; split; [reflexivity|];
       repeat constructor; by eexists _, _).
Defined.

(** X4 at a list of hosts that is null. *)
Lemma malformed_hosts_panic_witness :
  pageLoop 1 1
    (Sample.scripted []
       (Sample.answers (Some {[ "Data" := VMap {[ "VirtualHosts" := VNil ]} ]})))
    "instance:vhost" "ListVirtualHosts" ["instance"; "vhost"] ∅ None false
    Sample.start
  = (Panics,
     {| now := 5;
        trace := [Request 0 (listCall "ListVirtualHosts" ∅);
                  DebugLog "ListVirtualHosts"
                    (Some {[ "Data" := VMap {[ "VirtualHosts" := VNil ]} ]}) ∅] |}).
Proof.
  apply (proj1 (malformed_hosts_panic 0 1
                  (Sample.scripted []
                     (Sample.answers
                        (Some {[ "Data" := VMap {[ "VirtualHosts" := VNil ]} ]})))
                  "instance:vhost" "ListVirtualHosts"
                  ["instance"; "vhost"] "vhost" ∅ None false Sample.start
                  (Some {[ "Data" := VMap {[ "VirtualHosts" := VNil ]} ]}) _
                  eq_refl eq_refl) VNil).
  - reflexivity.
  - discriminate.
Defined.

(** X5 at a page with the host and a NextToken. *)
Lemma match_ends_listing_witness :
  pageLoop 1 1
    (Sample.scripted []
       (Sample.answers
          (Sample.page [Sample.host "other"; Sample.host "vhost"] (Some "more"))))
    "instance:vhost" "ListVirtualHosts" ["instance"; "vhost"] ∅ None false
    Sample.start
  = (Returns (Some {[ "Name" := VStr "vhost" ]}, None),
     {| now := 5;
        trace := [Request 0 (listCall "ListVirtualHosts" ∅);
                  DebugLog "ListVirtualHosts"
                    (Sample.page [Sample.host "other"; Sample.host "vhost"]
                       (Some "more")) ∅] |}).
Proof.
  apply (match_ends_listing 0 1
           (Sample.scripted []
              (Sample.answers
                 (Sample.page [Sample.host "other"; Sample.host "vhost"]
                    (Some "more"))))
           "instance:vhost" "ListVirtualHosts"
           ["instance"; "vhost"] "vhost" ∅ None false Sample.start
           (Sample.page [Sample.host "other"; Sample.host "vhost"] (Some "more")) _
           [Sample.host "other"] {[ "Name" := VStr "vhost" ]} []
           eq_refl eq_refl eq_refl).
  - constructor; [|constructor]. apply host_other. discriminate.
  - reflexivity.
Defined.

(** X6 at a call throttled once. *)
Lemma describe_sleeps_after_retryable_witness :
  ∃ tr,
    trace (DescribeAmqpVirtualHost 2 2
             (Sample.service
                (Sample.scripted [Sample.fails "Throttling"]
                   (Sample.answers (Sample.page [Sample.host "vhost"] None))))
             "instance:vhost" Sample.start).2
    = trace Sample.start ++ tr ∧
    ∀ i d, tr !! i = Some (Sleep d) →
      ∃ j t c e,
        i = S j ∧ tr !! j = Some (Request t c) ∧
        r_err (Sample.scripted [Sample.fails "Throttling"]
                 (Sample.answers (Sample.page [Sample.host "vhost"] None))
                 (calls (trace Sample.start) ++ calls (take j tr)) c) = Some e ∧
        NeedRetry (Some e) = true.
Proof.
  apply (describe_sleeps_after_retryable 2 2
           (Sample.service
              (Sample.scripted [Sample.fails "Throttling"]
                 (Sample.answers (Sample.page [Sample.host "vhost"] None))))
           "instance:vhost" Sample.start _ eq_refl).
Defined.

(** X7 at a host on the second page. *)
Lemma describe_finds_host_on_later_page_witness :
  ∃ st',
    DescribeAmqpVirtualHost 2 1
      (Sample.service
         (Sample.scripted
            [Sample.answers (Sample.page [Sample.host "other"] (Some "more"))]
            (Sample.answers (Sample.page [Sample.host "vhost"] None))))
      "instance:vhost" Sample.start
    = (Returns (Some {[ "Name" := VStr "vhost" ]}, None), st') ∧
    calls (trace st') =
      [listCall "ListVirtualHosts"
         {[ "RegionId" := VStr "cn-hangzhou"; "InstanceId" := VStr "instance";
            "MaxResults" := VInt 100 ]};
       listCall "ListVirtualHosts"
         (<["NextToken" := VStr "more"]>
            {[ "RegionId" := VStr "cn-hangzhou"; "InstanceId" := VStr "instance";
               "MaxResults" := VInt 100 ]})].
Proof.
  apply (describe_finds_host_on_later_page 2 0
           (Sample.service
              (Sample.scripted
                 [Sample.answers (Sample.page [Sample.host "other"] (Some "more"))]
                 (Sample.answers (Sample.page [Sample.host "vhost"] None))))
           "instance:vhost" Sample.start
           (Sample.scripted
              [Sample.answers (Sample.page [Sample.host "other"] (Some "more"))]
              (Sample.answers (Sample.page [Sample.host "vhost"] None)))
           "instance" "vhost"
           [(Sample.page [Sample.host "other"] (Some "more"),
             [Sample.host "other"], "more")]
           (Sample.page [Sample.host "vhost"] None)
           [] {[ "Name" := VStr "vhost" ]} []).
  - reflexivity.
  - reflexivity.
  - intros [|[|i]] resp hosts t [= <- <- <-].
    split; [by apply scripted_answers|]. split; [reflexivity|].
    split; [discriminate|]. split; [|split; [|discriminate]].
    + constructor; [|constructor]. apply host_other. discriminate.
    + eexists. split; reflexivity.
  - by apply scripted_answers.
  - reflexivity.
  - constructor.
  - reflexivity.
  - cbn. lia.
Defined.

(** X8 at two pages without the host. *)
Lemma describe_not_found_at_end_of_listing_witness :
  ∃ st',
    DescribeAmqpVirtualHost 2 1
      (Sample.service
         (Sample.scripted
            [Sample.answers (Sample.page [Sample.host "other"] (Some "more"))]
            (Sample.answers (Sample.page [Sample.host "another"] None))))
      "instance:vhost" Sample.start
    = (Returns (None,
         WrapErrorf (Some (Error (GetNotFoundMessage "Amqp" "instance:vhost")))
           NotFoundWithResponse
           [iface (Sample.page [Sample.host "another"] None)]), st') ∧
    calls (trace st') =
      [listCall "ListVirtualHosts"
         {[ "RegionId" := VStr "cn-hangzhou"; "InstanceId" := VStr "instance";
            "MaxResults" := VInt 100 ]};
       listCall "ListVirtualHosts"
         (<["NextToken" := VStr "more"]>
            {[ "RegionId" := VStr "cn-hangzhou"; "InstanceId" := VStr "instance";
               "MaxResults" := VInt 100 ]})].
Proof.
  apply (describe_not_found_at_end_of_listing 2 0
           (Sample.service
              (Sample.scripted
                 [Sample.answers (Sample.page [Sample.host "other"] (Some "more"))]
                 (Sample.answers (Sample.page [Sample.host "another"] None))))
           "instance:vhost" Sample.start
           (Sample.scripted
              [Sample.answers (Sample.page [Sample.host "other"] (Some "more"))]
              (Sample.answers (Sample.page [Sample.host "another"] None)))
           "instance" "vhost"
           [(Sample.page [Sample.host "other"] (Some "more"),
             [Sample.host "other"], "more")]
           (Sample.page [Sample.host "another"] None)
           [Sample.host "another"]).
  - reflexivity.
  - reflexivity.
  - intros [|[|i]] resp hosts t [= <- <- <-].
    split; [by apply scripted_answers|]. split; [reflexivity|].
    split; [discriminate|]. split; [|split; [|discriminate]].
    + constructor; [|constructor]. apply host_other. discriminate.
    + eexists. split; reflexivity.
  - by apply scripted_answers.
  - reflexivity.
  - constructor; [|constructor]. apply host_other. discriminate.
  - intros r t [= <-]. discriminate.
  - cbn. lia.
Defined.




(** X9 at the endless listing. *)
Lemma describe_endless_listing_witness :
  ∃ st',
    DescribeAmqpVirtualHost 5 1 (Sample.service Sample.endless) "instance:vhost"
      Sample.start = (Unfinished, st') ∧
    ((0 < 1)%nat →
     length (calls (trace st')) = (length (calls (trace Sample.start)) + 5)%nat).
Proof.
  apply (describe_endless_listing 5 1 (Sample.service Sample.endless)
           "instance:vhost" Sample.start Sample.endless "instance" "vhost"
           eq_refl eq_refl).
  intros history rq. split; [reflexivity|].
  eexists _, [Sample.host "other"], "more".
  split; [reflexivity|]. split; [reflexivity|]. split; [discriminate|].
  split; [|split; [reflexivity|discriminate]].
  constructor; [|constructor]. apply host_other. discriminate.
Defined.
